(** * Todo backend: authentication, ownership gate and task store

    A shallow embedding of the FastAPI todo backend:
    - [security.py]   : password hashing over a passlib [CryptContext];
    - [models.py]     : the [User] and [Task] tables;
    - the two snapshots of the application module kept under [.history]
      ([app_20260214104525.py], the earlier one, and
      [app_20260215151647.py], the later one).

    Python [str] is [string]; one [ascii] stands for one character.
    Timestamps are [Z] (microseconds since the epoch).  Everything the
    handlers read from outside (the clock, [uuid4()], the salt drawn by the
    hasher) is an explicit argument, one argument per read. *)

From Stdlib Require Import ZArith List String Ascii Bool Lia.
From Stdlib Require Import Sorting.Sorted Sorting.Permutation.
Import ListNotations.
Local Open Scope string_scope.
Local Open Scope Z_scope.

(** ** Exceptions and responses *)

(** What a call can raise.  [HTTPException] is FastAPI's, with the fields
    the handlers fill in; the others are the exceptions of the libraries
    under the handlers, none of which the handlers catch. *)
Inductive Exn : Type :=
| HTTPException (status_code : Z) (detail : string)
                (headers : list (string * string))
| InvalidToken
| IntegrityError
| UnknownHashError
| NullPasswordError.

Inductive Response (A : Type) : Type :=
| Ok (a : A)
| Raised (e : Exn).
Arguments Ok {A} a.
Arguments Raised {A} e.

Definition bind {A B : Type} (r : Response A) (k : A -> Response B)
  : Response B :=
  match r with
  | Ok a => k a
  | Raised e => Raised e
  end.

Declare Scope resp_scope.
Delimit Scope resp_scope with resp.
Notation "x <- r ;; k" := (bind r (fun x => k))
  (at level 100, r at next level, right associativity) : resp_scope.

(** The error taxonomy seen by a caller: an [HTTPException] by its status
    code, an invalid token as [Unauthenticated], and anything else that
    escapes a handler as a 5xx. *)
Inductive ErrorKind : Type :=
| Conflict | Unauthenticated | Forbidden | NotFound | Validation | Fatal.

Definition status_of (e : Exn) : Z :=
  match e with
  | HTTPException code _ _ => code
  | InvalidToken => 401
  | IntegrityError | UnknownHashError | NullPasswordError => 500
  end.

Definition kind_of (e : Exn) : ErrorKind :=
  let code := status_of e in
  if code =? 401 then Unauthenticated
  else if code =? 403 then Forbidden
  else if code =? 404 then NotFound
  else if code =? 409 then Conflict
  else if code =? 422 then Validation
  else Fatal.

Definition is_ok {A : Type} (r : Response A) : bool :=
  match r with Ok _ => true | Raised _ => false end.

(** ** security.py *)

Module Security.

(** passlib's [CryptContext], as far as [security.py] uses it: [hash]
    draws a salt and derives the stored string, [verify] checks a
    secret against a stored string.  Both may raise. *)
Record CryptContext : Type := {
  hash : string -> string -> Response string;   (* salt, secret *)
  verify : string -> string -> Response bool    (* secret, stored hash *)
}.

(** [s[:n]] *)
Definition slice_to (n : nat) (s : string) : string := substring 0 n s.

Definition verify_password (pwd_context : CryptContext)
           (plain_password hashed_password : string) : Response bool :=
  let truncated_password := slice_to 72 plain_password in
  verify pwd_context truncated_password hashed_password.

Definition get_password_hash (pwd_context : CryptContext)
           (salt password : string) : Response string :=
  let truncated_password := slice_to 72 password in
  hash pwd_context salt truncated_password.

(** A small context that runs, shaped like passlib's with the single
    scheme bcrypt: a stored string is recognised by its [$2b$] prefix,
    and [verify] raises [UnknownHashError] on a string that no
    configured scheme recognises.  The digest keeps the salt and the
    secret in clear and is there only to make the context executable. *)
Definition ident : string := "$2b$".

Fixpoint ends_with (s t : string) : bool :=
  String.eqb s t ||
  match t with
  | EmptyString => false
  | String _ t' => ends_with s t'
  end.

Fixpoint starts_with (p s : string) : bool :=
  match p with
  | EmptyString => true
  | String a p' =>
      match s with
      | EmptyString => false
      | String b s' => Ascii.eqb a b && starts_with p' s'
      end
  end.

Definition bcrypt_like : CryptContext := {|
  hash := fun salt secret => Ok (ident ++ salt ++ "$" ++ secret);
  verify := fun secret stored =>
    if starts_with ident stored
    then Ok (ends_with ("$" ++ secret) stored)
    else Raised UnknownHashError
|}.

End Security.

(** ** models.py *)

Module User.
Record t : Type := {
  id : string;                 (* primary key *)
  email : string;              (* unique, not null *)
  hashed_password : string;
  name : option string;
  created_at : Z
}.
End User.

Module Task.
Record t : Type := {
  id : option Z;               (* primary key, [None] until stored *)
  user_id : string;            (* foreign key to [user.id] *)
  title : string;              (* not null *)
  description : option string;
  completed : bool;
  created_at : Z;
  updated_at : Z
}.
End Task.

(** ** The store behind a [Session] *)

Module Database.

(** Both tables in storage order, and the counter the store draws task
    ids from. *)
Record Session : Type := {
  users : list User.t;
  tasks : list Task.t;
  task_seq : Z
}.

Definition empty : Session := {| users := []; tasks := []; task_seq := 1 |}.

(** [db.exec(select(...).where(p)).first()] *)
Definition first {A : Type} (p : A -> bool) (rows : list A) : option A :=
  find p rows.

(** [ORDER BY] on a key compared by [le]: rows are inserted one by one
    in front of the first row that is not smaller. *)
Fixpoint insert_by {A : Type} (le : A -> A -> bool) (x : A) (l : list A)
  : list A :=
  match l with
  | [] => [x]
  | y :: l' => if le x y then x :: l else y :: insert_by le x l'
  end.

Definition order_by {A : Type} (le : A -> A -> bool) (rows : list A)
  : list A :=
  fold_right (insert_by le) [] rows.

Definition id_is (i : Z) (t : Task.t) : bool :=
  match Task.id t with
  | Some j => j =? i
  | None => false
  end.

(** [db.add(db_user); db.commit()] of a new user: the primary key and
    the unique constraint on [email] are checked by the store. *)
Definition add_user (u : User.t) (db : Session) : Response Session :=
  if existsb (fun v => String.eqb (User.id v) (User.id u)
                       || String.eqb (User.email v) (User.email u))
             (users db)
  then Raised IntegrityError
  else Ok {| users := users db ++ [u];
             tasks := tasks db;
             task_seq := task_seq db |}.

(** [db.add(db_task); db.commit(); db.refresh(db_task)] of a new task:
    the store checks the foreign key, assigns the next id and gives the
    stored row back. *)
Definition add_task (t : Task.t) (db : Session)
  : Response (Task.t * Session) :=
  if existsb (fun v => String.eqb (User.id v) (Task.user_id t)) (users db)
  then
    let row := {| Task.id := Some (task_seq db);
                  Task.user_id := Task.user_id t;
                  Task.title := Task.title t;
                  Task.description := Task.description t;
                  Task.completed := Task.completed t;
                  Task.created_at := Task.created_at t;
                  Task.updated_at := Task.updated_at t |} in
    Ok (row, {| users := users db;
                tasks := tasks db ++ [row];
                task_seq := task_seq db + 1 |})
  else Raised IntegrityError.

(** [db.add(task); db.commit()] of a row that is already stored: the
    row with that primary key is overwritten in place. *)
Definition merge_task (t : Task.t) (db : Session) : Session :=
  {| users := users db;
     tasks := map (fun r =>
                     match Task.id t with
                     | Some i => if id_is i r then t else r
                     | None => r
                     end) (tasks db);
     task_seq := task_seq db |}.

(** [db.delete(task); db.commit()] *)
Definition delete (t : Task.t) (db : Session) : Session :=
  {| users := users db;
     tasks := filter (fun r =>
                        match Task.id t with
                        | Some i => negb (id_is i r)
                        | None => true
                        end) (tasks db);
     task_seq := task_seq db |}.

End Database.

(** ** auth.py *)

Module Auth.

Record Payload : Type := {
  sub : option string;
  iat : Z;
  exp : Z
}.

(** A bearer token: the payload it decodes to ([None] when it does not
    decode) and the signature it carries. *)
Record Token : Type := {
  payload : option Payload;
  signature : string
}.

(** config.py, with the keyed signature function of the algorithm. *)
Record Settings : Type := {
  SECRET_KEY : string;
  ACCESS_TOKEN_EXPIRE_MINUTES : Z;
  mac : string -> Payload -> string
}.

(** [timedelta(minutes=m)] in microseconds *)
Definition minutes (m : Z) : Z := m * 60 * 1000000.

(** Modelled from the spec: [auth.py] is not among the sources; this is
    the Token Service's [issue]: the token embeds the subject,
    [issued_at = now] and [expires_at = now + EXPIRY_DURATION]
    (configurable, [expires_delta] when the caller passes one), signed
    with the server-held secret. *)
Definition create_access_token (cfg : Settings) (subject : string)
           (expires_delta : option Z) (now : Z) : Token :=
  let lifetime :=
    match expires_delta with
    | Some d => d
    | None => minutes (ACCESS_TOKEN_EXPIRE_MINUTES cfg)
    end in
  let p := {| sub := Some subject; iat := now; exp := now + lifetime |} in
  {| payload := Some p; signature := mac cfg (SECRET_KEY cfg) p |}.

(** Modelled from the spec: [auth.py] is not among the sources; this is
    the Token Service's [verify]: it fails with [InvalidToken] when the
    payload is malformed, when the signature does not match, or when
    [now >= expires_at], and gives the payload otherwise. *)
Definition verify_token (cfg : Settings) (token : Token) (now : Z)
  : Response Payload :=
  match payload token with
  | None => Raised InvalidToken
  | Some p =>
      if negb (String.eqb (signature token) (mac cfg (SECRET_KEY cfg) p))
      then Raised InvalidToken
      else if exp p <=? now then Raised InvalidToken
      else Ok p
  end.

(** A keyed function that runs, for examples only. *)
Definition toy_mac (key : string) (p : Payload) : string :=
  (key ++ "." ++ match sub p with Some s => s | None => "" end ++ "."
       ++ string_of_list_ascii
            (map (fun d => ascii_of_nat (48 + Z.to_nat d))
                 [exp p / 1000 mod 10; exp p / 100 mod 10;
                  exp p / 10 mod 10; exp p mod 10]))%string.

Definition toy_settings : Settings :=
  {| SECRET_KEY := "s3cret"; ACCESS_TOKEN_EXPIRE_MINUTES := 30;
     mac := toy_mac |}.

End Auth.

(** ** The application module *)

Import Database.

(** Request and response models. *)
Module Schemas.

Record UserCreate : Type := { email : string; password : string }.

(** [OAuth2PasswordRequestForm] *)
Record LoginForm : Type := { username : string; form_password : string }.

Record TokenOut : Type := {
  access_token : Auth.Token;
  token_type : string
}.

Inductive Status : Type := pending | in_progress | completed.

Definition Status_eqb (a b : Status) : bool :=
  match a, b with
  | pending, pending | in_progress, in_progress | completed, completed =>
      true
  | _, _ => false
  end.

Record TaskCreate : Type := {
  title : string;
  description : option string;
  status : Status
}.

(** A request body read into [TaskCreate]: a missing [description] is
    [None], a missing [status] is [Field(default=Status.pending)]. *)
Definition TaskCreate_of_body (title : string)
           (description : option string) (status : option Status)
  : TaskCreate :=
  {| title := title;
     description := description;
     status := match status with Some s => s | None => pending end |}.

(** A field of a partial update: left out of the body, or given (as
    [null] or as a value).  [dict(exclude_unset=True)] keeps the given
    ones. *)
Inductive Field (A : Type) : Type :=
| Unset
| Given (v : option A).
Arguments Unset {A}.
Arguments Given {A} v.

Record TaskUpdate : Type := {
  upd_title : Field string;
  upd_description : Field string;
  upd_status : Field Status
}.

End Schemas.
Import Schemas.

Definition owned_by (u : User.t) (t : Task.t) : bool :=
  String.eqb (Task.user_id t) (User.id u).

Definition not_found {A : Type} : Response A :=
  Raised (HTTPException 404 "Task not found" []).

Definition bad_login {A : Type} : Response A :=
  Raised (HTTPException 401 "Incorrect username or password"
                        [("WWW-Authenticate", "Bearer")]).

(** The handlers whose bodies are the same in both snapshots.  A handler
    that writes gives its response and the store after it; when it
    raises, nothing has been committed. *)
Module App.

Section Handlers.
Variable pwd_context : Security.CryptContext.

(** [create_task]: two readings of the clock, one per timestamp. *)
Definition create_task (task_in : TaskCreate) (current_user : User.t)
           (db : Session) (now_created now_updated : Z)
  : Response Task.t * Session :=
  let db_task :=
    {| Task.id := None;
       Task.user_id := User.id current_user;
       Task.title := title task_in;
       Task.description := description task_in;
       Task.completed := Status_eqb (status task_in) completed;
       Task.created_at := now_created;
       Task.updated_at := now_updated |} in
  match add_task db_task db with
  | Ok (row, db') => (Ok row, db')
  | Raised e => (Raised e, db)
  end.

Definition get_task (id : Z) (current_user : User.t) (db : Session)
  : Response Task.t :=
  match first (fun t => id_is id t && owned_by current_user t)
              (tasks db) with
  | None => not_found
  | Some task => Ok task
  end.

(** [update_task].  [status], when given, sets [completed] and leaves
    the dictionary; the remaining given fields are assigned; then
    [updated_at].  A [title] assigned [null] is refused by the store
    at commit (the column is not null). *)
Definition update_task (id : Z) (task_update : TaskUpdate)
           (current_user : User.t) (db : Session) (now : Z)
  : Response Task.t * Session :=
  match first (fun t => id_is id t && owned_by current_user t)
              (tasks db) with
  | None => (not_found, db)
  | Some task =>
      let completed' :=
        match upd_status task_update with
        | Given v =>
            match v with
            | Some s => Status_eqb s completed
            | None => false
            end
        | Unset => Task.completed task
        end in
      let title' :=
        match upd_title task_update with
        | Given v => v
        | Unset => Some (Task.title task)
        end in
      let description' :=
        match upd_description task_update with
        | Given v => v
        | Unset => Task.description task
        end in
      match title' with
      | None => (Raised IntegrityError, db)
      | Some new_title =>
          let task' :=
            {| Task.id := Task.id task;
               Task.user_id := Task.user_id task;
               Task.title := new_title;
               Task.description := description';
               Task.completed := completed';
               Task.created_at := Task.created_at task;
               Task.updated_at := now |} in
          (Ok task', merge_task task' db)
      end
  end.

Definition delete_task (id : Z) (current_user : User.t) (db : Session)
  : Response string * Session :=
  match first (fun t => id_is id t && owned_by current_user t)
              (tasks db) with
  | None => (not_found, db)
  | Some task => (Ok "Task deleted successfully", delete task db)
  end.

(** [register_user], up to the token: the lookup by email, then the
    hash, the new row and the commit. *)
Definition register_row (user_in : UserCreate) (db : Session)
           (uuid4 salt : string) (now : Z)
  : Response User.t * Session :=
  match first (fun u => String.eqb (User.email u) (email user_in))
              (users db) with
  | Some _ =>
      (Raised (HTTPException 409 "Email already registered" []), db)
  | None =>
      match Security.get_password_hash pwd_context salt
                                       (password user_in) with
      | Raised e => (Raised e, db)
      | Ok hashed =>
          let db_user :=
            {| User.id := uuid4;
               User.email := email user_in;
               User.hashed_password := hashed;
               User.name := None;
               User.created_at := now |} in
          match add_user db_user db with
          | Raised e => (Raised e, db)
          | Ok db' => (Ok db_user, db')
          end
      end
  end.

End Handlers.

End App.

(** [app_20260214104525.py], the earlier snapshot. *)
Module V0214.

Section Handlers.
Variable pwd_context : Security.CryptContext.
Variable cfg : Auth.Settings.

Definition register_user (user_in : UserCreate) (db : Session)
           (uuid4 salt : string) (now_created now_issued : Z)
  : Response TokenOut * Session :=
  match App.register_row pwd_context user_in db uuid4 salt now_created
  with
  | (Raised e, db') => (Raised e, db')
  | (Ok db_user, db') =>
      let access_token_expires :=
        Auth.minutes (Auth.ACCESS_TOKEN_EXPIRE_MINUTES cfg) in
      let access_token :=
        Auth.create_access_token cfg (User.id db_user)
                                 (Some access_token_expires)
                                 now_issued in
      (Ok {| access_token := access_token; token_type := "bearer" |},
       db')
  end.

Definition login_for_access_token (form_data : LoginForm)
           (db : Session) (now : Z) : Response TokenOut :=
  match first (fun u => String.eqb (User.email u) (username form_data))
              (users db) with
  | None => bad_login
  | Some user =>
      match Security.verify_password pwd_context
              (form_password form_data) (User.hashed_password user) with
      | Raised e => Raised e
      | Ok is_password_correct =>
          if negb is_password_correct then bad_login
          else
            let access_token_expires :=
              Auth.minutes (Auth.ACCESS_TOKEN_EXPIRE_MINUTES cfg) in
            let access_token :=
              Auth.create_access_token cfg (User.id user)
                                       (Some access_token_expires)
                                       now in
            Ok {| access_token := access_token;
                  token_type := "bearer" |}
      end
  end.

Definition get_current_user (token : Auth.Token) (db : Session)
           (now : Z) : Response User.t :=
  match Auth.verify_token cfg token now with
  | Raised e => Raised e
  | Ok payload =>
      match Auth.sub payload with
      | None =>
          Raised (HTTPException 401 "Could not validate credentials"
                                [("WWW-Authenticate", "Bearer")])
      | Some user_id =>
          match first (fun u => String.eqb (User.id u) user_id)
                      (users db) with
          | None => Raised (HTTPException 404 "User not found" [])
          | Some user => Ok user
          end
      end
  end.

Definition list_tasks (status : option Status) (sort : option string)
           (current_user : User.t) (db : Session)
  : Response (list Task.t) :=
  let query := filter (owned_by current_user) (tasks db) in
  let query :=
    match status with
    | Some completed =>
        filter (fun t => Bool.eqb (Task.completed t) true) query
    | Some _ =>
        filter (fun t => Bool.eqb (Task.completed t) false) query
    | None => query
    end in
  let query :=
    match sort with
    | Some key =>
        if String.eqb key "created_at" then
          order_by (fun a b => Task.created_at a <=? Task.created_at b)
                   query
        else if String.eqb key "title" then
          order_by (fun a b => String.leb (Task.title a) (Task.title b))
                   query
        else query
    | None => query
    end in
  Ok query.

Definition toggle_task_completion (id : Z) (current_user : User.t)
           (db : Session) (now : Z) : Response Task.t * Session :=
  match first (fun t => id_is id t && owned_by current_user t)
              (tasks db) with
  | None => (not_found, db)
  | Some task =>
      let task' :=
        {| Task.id := Task.id task;
           Task.user_id := Task.user_id task;
           Task.title := Task.title task;
           Task.description := Task.description task;
           Task.completed := negb (Task.completed task);
           Task.created_at := Task.created_at task;
           Task.updated_at := now |} in
      (Ok task', merge_task task' db)
  end.

End Handlers.

End V0214.

(** [app_20260215151647.py], the later snapshot. *)
Module V0215.

Section Handlers.
Variable pwd_context : Security.CryptContext.
Variable cfg : Auth.Settings.

Definition register_user (user_in : UserCreate) (db : Session)
           (uuid4 salt : string) (now_created now_issued : Z)
  : Response TokenOut * Session :=
  match App.register_row pwd_context user_in db uuid4 salt now_created
  with
  | (Raised e, db') => (Raised e, db')
  | (Ok db_user, db') =>
      let access_token :=
        Auth.create_access_token cfg (User.id db_user) None
                                 now_issued in
      (Ok {| access_token := access_token; token_type := "bearer" |},
       db')
  end.

(** [not user or not verify_password(...)]: the password is checked
    only when a user was found. *)
Definition login_for_access_token (form_data : LoginForm)
           (db : Session) (now : Z) : Response TokenOut :=
  match first (fun u => String.eqb (User.email u) (username form_data))
              (users db) with
  | None => bad_login
  | Some user =>
      (ok <- Security.verify_password pwd_context
               (form_password form_data) (User.hashed_password user) ;;
       if negb ok then bad_login
       else
         let access_token :=
           Auth.create_access_token cfg (User.id user) None now in
         Ok {| access_token := access_token; token_type := "bearer" |}
      )%resp
  end.

(** [not user_id] holds for a missing and for an empty subject. *)
Definition get_current_user (token : Auth.Token) (db : Session)
           (now : Z) : Response User.t :=
  (payload <- Auth.verify_token cfg token now ;;
   let unauthenticated :=
     Raised (HTTPException 401 "Could not validate credentials" []) in
   match Auth.sub payload with
   | None => unauthenticated
   | Some user_id =>
       if String.eqb user_id "" then unauthenticated
       else
         match first (fun u => String.eqb (User.id u) user_id)
                     (users db) with
         | None => unauthenticated
         | Some user => Ok user
         end
   end)%resp.

Definition list_tasks (status_filter : option Status)
           (current_user : User.t) (db : Session)
  : Response (list Task.t) :=
  let query := filter (owned_by current_user) (tasks db) in
  let query :=
    match status_filter with
    | Some s =>
        filter (fun t => Bool.eqb (Task.completed t)
                                  (Status_eqb s completed)) query
    | None => query
    end in
  Ok query.

End Handlers.

End V0215.

(** ** Vocabulary of the properties *)

(** What the schema promises of a store: task ids are assigned, below
    the counter and pairwise distinct (primary key); user ids and emails
    are pairwise distinct (primary key, unique constraint). *)
Record consistent (db : Session) : Prop := {
  task_ids_assigned :
    Forall (fun t => exists i, Task.id t = Some i /\ i < task_seq db)
           (tasks db);
  task_ids_unique : NoDup (map Task.id (tasks db));
  user_ids_unique : NoDup (map User.id (users db));
  emails_unique : NoDup (map User.email (users db))
}.

(** The stores the application can be in: the empty one, and what a
    handler that writes leaves behind, whatever it answered. *)
Inductive reachable (pwd_context : Security.CryptContext)
  : Session -> Prop :=
| reach_empty : reachable pwd_context Database.empty
| reach_register db user_in uuid4 salt now r db' :
    reachable pwd_context db ->
    App.register_row pwd_context user_in db uuid4 salt now = (r, db') ->
    reachable pwd_context db'
| reach_create db task_in u t0 t1 r db' :
    reachable pwd_context db ->
    App.create_task task_in u db t0 t1 = (r, db') ->
    reachable pwd_context db'
| reach_update db id upd u now r db' :
    reachable pwd_context db ->
    App.update_task id upd u db now = (r, db') ->
    reachable pwd_context db'
| reach_delete db id u r db' :
    reachable pwd_context db ->
    App.delete_task id u db = (r, db') ->
    reachable pwd_context db'
| reach_toggle db id u now r db' :
    reachable pwd_context db ->
    V0214.toggle_task_completion id u db now = (r, db') ->
    reachable pwd_context db'.

(** The rows a status filter lets through. *)
Definition status_matches (filter_by : option Status) (t : Task.t) : bool :=
  match filter_by with
  | None => true
  | Some completed => Task.completed t
  | Some _ => negb (Task.completed t)
  end.

(** The tasks of [u] that pass the filter, in storage order. *)
Definition visible (filter_by : option Status) (u : User.t) (db : Session)
  : list Task.t :=
  filter (fun t => owned_by u t && status_matches filter_by t) (tasks db).

Definition by_created_at (a b : Task.t) : Prop :=
  Task.created_at a <= Task.created_at b.

Definition by_title (a b : Task.t) : Prop :=
  String.leb (Task.title a) (Task.title b) = true.

(** One write by a handler, whatever it answered.  [register_user] of
    either snapshot writes what [register_row] writes. *)
Inductive writes (pwd_context : Security.CryptContext)
  : Session -> Session -> Prop :=
| write_register db user_in uuid4 salt now r db' :
    App.register_row pwd_context user_in db uuid4 salt now = (r, db') ->
    writes pwd_context db db'
| write_create db task_in u t0 t1 r db' :
    App.create_task task_in u db t0 t1 = (r, db') ->
    writes pwd_context db db'
| write_update db id upd u now r db' :
    App.update_task id upd u db now = (r, db') ->
    writes pwd_context db db'
| write_delete db id u r db' :
    App.delete_task id u db = (r, db') ->
    writes pwd_context db db'
| write_toggle db id u now r db' :
    V0214.toggle_task_completion id u db now = (r, db') ->
    writes pwd_context db db'.

(** The foreign key of [task.user_id]: every stored task names a stored
    user. *)
Definition owners_stored (db : Session) : Prop :=
  Forall (fun t => exists u, In u (users db) /\ User.id u = Task.user_id t)
         (tasks db).

(** What a status filter asks of the status a task was created with. *)
Definition filter_admits (filter_by created_as : option Status) : bool :=
  match filter_by with
  | None => true
  | Some completed =>
      match created_as with Some completed => true | _ => false end
  | Some _ =>
      match created_as with Some completed => false | _ => true end
  end.

(** A partial update that gives only [status]. *)
Definition only_status (s : Status) : TaskUpdate :=
  {| upd_title := Unset; upd_description := Unset;
     upd_status := Given (Some s) |}.

(** ** Sample data *)

Module Sample.

Definition ctx : Security.CryptContext := Security.bcrypt_like.
Definition cfg : Auth.Settings := Auth.toy_settings.

Definition alice : User.t :=
  {| User.id := "uid-alice"; User.email := "a@x.com";
     User.hashed_password := "$2b$na$password123";
     User.name := None; User.created_at := 100 |}.

Definition bob : User.t :=
  {| User.id := "uid-bob"; User.email := "b@x.com";
     User.hashed_password := "$2b$nb$hunter2hunter2";
     User.name := None; User.created_at := 200 |}.

Definition t1 : Task.t :=
  {| Task.id := Some 1; Task.user_id := "uid-alice";
     Task.title := "write"; Task.description := Some "the report";
     Task.completed := false;
     Task.created_at := 300; Task.updated_at := 300 |}.

Definition t2 : Task.t :=
  {| Task.id := Some 2; Task.user_id := "uid-alice";
     Task.title := "call"; Task.description := None;
     Task.completed := true;
     Task.created_at := 250; Task.updated_at := 400 |}.

Definition t3 : Task.t :=
  {| Task.id := Some 3; Task.user_id := "uid-bob";
     Task.title := "buy milk"; Task.description := None;
     Task.completed := false;
     Task.created_at := 500; Task.updated_at := 500 |}.

Definition db : Session :=
  {| users := [alice; bob]; tasks := [t1; t2; t3]; task_seq := 4 |}.

Definition only_title (s : string) : TaskUpdate :=
  {| upd_title := Given (Some s);
     upd_description := Unset;
     upd_status := Unset |}.

(** 80 characters, more than the scheme takes. *)
Definition long_password : string :=
  "0123456789012345678901234567890123456789"
  ++ "0123456789012345678901234567890123456789".

Definition expired : Auth.Token :=
  Auth.create_access_token cfg "uid-alice" None 0.

(** A token whose subject is not in the [user] table. *)
Definition orphan : Auth.Token :=
  Auth.create_access_token cfg "uid-gone" None 1000.

End Sample.

(** ** Edge cases *)

Definition has_nul (s : string) : bool :=
  existsb (Ascii.eqb zero) (list_ascii_of_string s).

(** The executable context again, now with bcrypt's refusal of a secret
    that holds the NUL character: passlib raises [NullPasswordError]
    from [hash] and from [verify] alike. *)
Definition bcrypt_refusing_nul : Security.CryptContext := {|
  Security.hash := fun salt secret =>
    if has_nul secret then Raised NullPasswordError
    else Security.hash Security.bcrypt_like salt secret;
  Security.verify := fun secret stored =>
    if Security.starts_with Security.ident stored
    then if has_nul secret then Raised NullPasswordError
         else Security.verify Security.bcrypt_like secret stored
    else Raised UnknownHashError
|}.

(** Ten characters, the second of them NUL. *)
Definition nul_password : string := String "p" (String zero "assword1").

(** A row whose [hashed_password] was not written by this application's
    hasher ([models.py]: the user data is managed externally), in a
    format the context does not know. *)
Definition dave : User.t :=
  {| User.id := "uid-dave"; User.email := "d@x.com";
     User.hashed_password := "scrypt:32768:8:1$c2FsdA$3f9a";
     User.name := None; User.created_at := 50 |}.

Definition db_with_dave : Session :=
  {| users := [Sample.alice; dave]; tasks := []; task_seq := 1 |}.

(** * Properties *)

(** ** Strings and lists *)

Lemma slice_to_length (n : nat) (s : string) :
  (String.length (Security.slice_to n s) <= n)%nat.
Proof.
  unfold Security.slice_to.
  revert s; induction n as [|n IH]; intros [|c s]; simpl; try lia.
  specialize (IH s); lia.
Qed.

Lemma slice_to_short (n : nat) (s : string) :
  (String.length s <= n)%nat -> Security.slice_to n s = s.
Proof.
  unfold Security.slice_to.
  revert s; induction n as [|n IH]; intros [|c s]; simpl; intros H;
    try reflexivity; try lia.
  rewrite IH by lia; reflexivity.
Qed.




(** ** The store *)

Lemma first_app_none {A : Type} (p : A -> bool) (l l' : list A) :
  first p l = None -> first p (l ++ l') = first p l'.
Proof.
  unfold first; induction l as [|x l IH]; simpl; [reflexivity|].
  destruct (p x); [discriminate | exact IH].
Qed.

Lemma first_some_in {A : Type} (p : A -> bool) (l : list A) (x : A) :
  first p l = Some x -> In x l /\ p x = true.
Proof. apply find_some. Qed.

Lemma first_none_all {A : Type} (p : A -> bool) (l : list A) :
  first p l = None <-> (forall x, In x l -> p x = false).
Proof.
  split; [apply find_none|].
  unfold first; induction l as [|x l IH]; simpl; intros H; [reflexivity|].
  rewrite (H x (or_introl eq_refl)); apply IH; intros y Hy; apply H; now right.
Qed.

(** What a successful registration has done. *)
Lemma register_row_ok (pwd_context : Security.CryptContext)
      (user_in : UserCreate) (db db' : Session) (uuid4 salt : string)
      (now : Z) (u : User.t) :
  App.register_row pwd_context user_in db uuid4 salt now = (Ok u, db') ->
  first (fun v => String.eqb (User.email v) (email user_in)) (users db) = None
  /\ Security.get_password_hash pwd_context salt (password user_in)
     = Ok (User.hashed_password u)
  /\ User.id u = uuid4 /\ User.email u = email user_in
  /\ User.created_at u = now
  /\ users db' = (users db ++ [u])%list
  /\ tasks db' = tasks db /\ task_seq db' = task_seq db.
Proof.
  unfold App.register_row, add_user.
  destruct (first _ (users db)) as [v|]; [discriminate|].
  destruct (Security.get_password_hash _ _ _) as [hashed|e]; [|discriminate].
  destruct (existsb _ (users db)); [discriminate|].
  intros H; injection H as <- <-; simpl; repeat split; reflexivity.
Qed.

(** A registration that raises has written nothing. *)
Lemma register_row_raised (pwd_context : Security.CryptContext)
      (user_in : UserCreate) (db db' : Session) (uuid4 salt : string)
      (now : Z) (e : Exn) :
  App.register_row pwd_context user_in db uuid4 salt now = (Raised e, db') ->
  db' = db.
Proof.
  unfold App.register_row.
  destruct (first _ (users db)) as [v|]; [now intros [= _ <-]|].
  destruct (Security.get_password_hash _ _ _) as [hashed|e'];
    [|now intros [= _ <-]].
  destruct (add_user _ db); [discriminate | now intros [= _ <-]].
Qed.

(** After a successful registration the lookup by email finds the new row. *)
Lemma registered_user_found (pwd_context : Security.CryptContext)
      (user_in : UserCreate) (db db' : Session) (uuid4 salt : string)
      (now : Z) (u : User.t) :
  App.register_row pwd_context user_in db uuid4 salt now = (Ok u, db') ->
  first (fun v => String.eqb (User.email v) (email user_in)) (users db')
  = Some u.
Proof.
  intros H; apply register_row_ok in H.
  destruct H as (Hnone & _ & _ & Hmail & _ & Husers & _).
  rewrite Husers, (first_app_none _ _ _ Hnone).
  unfold first; simpl. rewrite Hmail, String.eqb_refl; reflexivity.
Qed.

(** ** Credential hasher *)

(** C7, as stated, fails: bcrypt takes no secret with a NUL character,
    and for such a password [get_password_hash] raises, so there is no
    hash to verify against (and a registration with it raises too). *)
Lemma get_password_hash_refuses_nul :
  Security.get_password_hash bcrypt_refusing_nul "na" nul_password
  = Raised NullPasswordError
  /\ ~ (exists h,
          Security.get_password_hash bcrypt_refusing_nul "na" nul_password
          = Ok h
          /\ Security.verify_password bcrypt_refusing_nul nul_password h
             = Ok true)
  /\ fst (V0215.register_user bcrypt_refusing_nul Sample.cfg
            {| email := "n@x.com"; password := nul_password |}
            Sample.db "uid-n" "na" 600 601)
     = Raised NullPasswordError.
Proof.
  split; [reflexivity | split; [|reflexivity]].
  intros (h & Hh & _); vm_compute in Hh; discriminate.
Qed.

(** C7, amended.  Hashing and verification hand the scheme the same
    string, the first 72 characters of the password:
    [get_password_hash] is the scheme's [hash] of it and
    [verify_password] the scheme's [verify] of it, exceptions included.
    So for every password [p], however long, whose first 72 characters
    the scheme hashes to [h] and verifies against [h],
    [verify_password p (get_password_hash p)] is true, and a login that
    follows a successful registration with the same credentials
    succeeds, in both snapshots, with a token for the registered
    identity. *)
Theorem verify_password_after_hash
        (pwd_context : Security.CryptContext) (salt p h : string)
        (Hhash : Security.hash pwd_context salt (Security.slice_to 72 p)
                 = Ok h)
        (Hverify : Security.verify pwd_context (Security.slice_to 72 p) h
                   = Ok true) :
  (String.length (Security.slice_to 72 p) <= 72)%nat
  /\ Security.get_password_hash pwd_context salt p = Ok h
  /\ Security.verify_password pwd_context p h = Ok true
  /\ (forall salt' q,
         Security.get_password_hash pwd_context salt' q
         = Security.hash pwd_context salt' (Security.slice_to 72 q))
  /\ (forall q stored,
         Security.verify_password pwd_context q stored
         = Security.verify pwd_context (Security.slice_to 72 q) stored)
  /\ (forall cfg user_in db uuid4 t0 t1 out db' now,
         password user_in = p ->
         V0215.register_user pwd_context cfg user_in db uuid4 salt t0 t1
         = (Ok out, db') ->
         exists out',
           V0215.login_for_access_token pwd_context cfg
             {| username := email user_in;
                form_password := password user_in |} db' now = Ok out'
           /\ option_map Auth.sub (Auth.payload (access_token out'))
              = option_map Auth.sub (Auth.payload (access_token out)))
  /\ (forall cfg user_in db uuid4 t0 t1 out db' now,
         password user_in = p ->
         V0214.register_user pwd_context cfg user_in db uuid4 salt t0 t1
         = (Ok out, db') ->
         exists out',
           V0214.login_for_access_token pwd_context cfg
             {| username := email user_in;
                form_password := password user_in |} db' now = Ok out'
           /\ option_map Auth.sub (Auth.payload (access_token out'))
              = option_map Auth.sub (Auth.payload (access_token out))).
Proof.
  assert (Hpw : forall stored,
             Security.get_password_hash pwd_context salt p = Ok stored ->
             Security.verify_password pwd_context p stored = Ok true).
  { intros stored Hs; unfold Security.get_password_hash in Hs.
    rewrite Hhash in Hs; injection Hs as <-; exact Hverify. }
  split; [apply slice_to_length|].
  split; [exact Hhash|].
  split; [exact Hverify|].
  split; [reflexivity|].
  split; [reflexivity|].
  split.
  - intros cfg user_in db uuid4 t0 t1 out db' now Hp.
    unfold V0215.register_user.
    destruct (App.register_row _ _ _ _ _ _) as [[u|e] db1] eqn:Hrow;
      [|discriminate].
    intros [= <- <-].
    unfold V0215.login_for_access_token; cbn [username form_password].
    rewrite (registered_user_found _ _ _ _ _ _ _ _ Hrow).
    apply register_row_ok in Hrow; destruct Hrow as (_ & Hh & _).
    rewrite Hp in *; rewrite (Hpw _ Hh); cbn.
    eexists; split; reflexivity.
  - intros cfg user_in db uuid4 t0 t1 out db' now Hp.
    unfold V0214.register_user.
    destruct (App.register_row _ _ _ _ _ _) as [[u|e] db1] eqn:Hrow;
      [|discriminate].
    intros [= <- <-].
    unfold V0214.login_for_access_token; cbn [username form_password].
    rewrite (registered_user_found _ _ _ _ _ _ _ _ Hrow).
    apply register_row_ok in Hrow; destruct Hrow as (_ & Hh & _).
    rewrite Hp in *; rewrite (Hpw _ Hh); cbn.
    eexists; split; reflexivity.
Qed.

(** A password of 80 characters, hashed with salt [na]. *)
Lemma verify_password_after_hash_witness :
  let h := ("$2b$na$" ++ Security.slice_to 72 Sample.long_password)%string in
  Security.hash Sample.ctx "na" (Security.slice_to 72 Sample.long_password)
  = Ok h
  /\ Security.verify Sample.ctx (Security.slice_to 72 Sample.long_password) h
     = Ok true
  /\ Security.get_password_hash Sample.ctx "na" Sample.long_password = Ok h
  /\ Security.verify_password Sample.ctx Sample.long_password h = Ok true.
Proof.
  intros h.
  assert (Hhash : Security.hash Sample.ctx "na"
                    (Security.slice_to 72 Sample.long_password) = Ok h)
    by reflexivity.
  assert (Hverify : Security.verify Sample.ctx
                      (Security.slice_to 72 Sample.long_password) h = Ok true)
    by (vm_compute; reflexivity).
  destruct (verify_password_after_hash Sample.ctx "na" Sample.long_password
              h Hhash Hverify) as (_ & Hg & Hv & _).
  repeat split; assumption.
Defined.

(** The two paths agree on where they cut: characters past the 72nd do
    not matter to either. *)
Lemma truncation_same_on_both_paths (pwd_context : Security.CryptContext)
      (salt p q h : string) :
  Security.slice_to 72 p = Security.slice_to 72 q ->
  Security.get_password_hash pwd_context salt p
  = Security.get_password_hash pwd_context salt q
  /\ Security.verify_password pwd_context p h
     = Security.verify_password pwd_context q h.
Proof.
  unfold Security.get_password_hash, Security.verify_password.
  intros ->; split; reflexivity.
Qed.

(** C8, as stated, fails: on a stored string that the scheme does not
    recognise the context raises, and [verify_password] lets it through. *)
Lemma verify_password_malformed_hash_raises :
  Security.verify_password Sample.ctx "secret" "not-a-hash"
  = Raised UnknownHashError
  /\ ~ (exists b : bool,
          Security.verify_password Sample.ctx "secret" "not-a-hash" = Ok b).
Proof.
  split; [reflexivity|].
  intros [b Hb]; vm_compute in Hb; discriminate.
Qed.

(** C8, amended.  [verify_password] gives back what the scheme's [verify]
    gives on the first 72 characters of the plain text and the stored
    string as it is: the same boolean when the scheme answers, the same
    exception when the scheme raises. *)
Theorem verify_password_passes_through
        (pwd_context : Security.CryptContext) (plain stored : string)
        (r : Response bool)
        (Hscheme : Security.verify pwd_context (Security.slice_to 72 plain)
                                   stored = r) :
  Security.verify_password pwd_context plain stored = r
  /\ (is_ok r = false -> forall b,
        Security.verify_password pwd_context plain stored <> Ok b).
Proof.
  unfold Security.verify_password; split; [exact Hscheme|].
  rewrite Hscheme; intros Hr b ->; discriminate.
Qed.

Lemma verify_password_passes_through_witness :
  Security.verify Sample.ctx (Security.slice_to 72 Sample.long_password)
                  "$2b$na$nope" = Ok false
  /\ Security.verify_password Sample.ctx Sample.long_password "$2b$na$nope"
     = Ok false.
Proof.
  split; [vm_compute; reflexivity|].
  apply (proj1 (verify_password_passes_through
                  Sample.ctx Sample.long_password "$2b$na$nope" (Ok false)
                  ltac:(vm_compute; reflexivity))).
Defined.

(** ** Token service *)

(** A token verifies exactly when it decodes, carries the signature of
    its payload and has not reached its expiry. *)
Lemma verify_token_ok_iff (cfg : Auth.Settings) (token : Auth.Token)
      (now : Z) (p : Auth.Payload) :
  Auth.verify_token cfg token now = Ok p <->
  Auth.payload token = Some p
  /\ Auth.signature token = Auth.mac cfg (Auth.SECRET_KEY cfg) p
  /\ now < Auth.exp p.
Proof.
  unfold Auth.verify_token.
  destruct (Auth.payload token) as [q|]; [|split; [discriminate|]].
  - destruct (String.eqb_spec (Auth.signature token)
                              (Auth.mac cfg (Auth.SECRET_KEY cfg) q))
      as [Hs|Hs]; cbn [negb].
    + destruct (Z.leb_spec (Auth.exp q) now) as [Hle|Hlt]; split.
      * discriminate.
      * intros ([= ->] & _ & Hlt); lia.
      * intros [= ->]; auto.
      * intros ([= ->] & _ & _); reflexivity.
    + split; [discriminate|].
      intros ([= ->] & Hs' & _); contradiction.
  - intros (H & _); discriminate.
Qed.

(** Verification has one way to fail. *)
Lemma verify_token_single_error (cfg : Auth.Settings) (token : Auth.Token)
      (now : Z) (e : Exn) :
  Auth.verify_token cfg token now = Raised e ->
  e = InvalidToken /\ kind_of e = Unauthenticated.
Proof.
  unfold Auth.verify_token.
  destruct (Auth.payload token) as [q|]; [|now intros [= <-]].
  destruct (negb _); [now intros [= <-]|].
  destruct (Auth.exp q <=? now); [now intros [= <-] | discriminate].
Qed.

(** A freshly issued token verifies until its lifetime is over. *)
Lemma issued_token_verifies (cfg : Auth.Settings) (subject : string)
      (delta : option Z) (t0 now : Z) :
  let token := Auth.create_access_token cfg subject delta t0 in
  forall p, Auth.payload token = Some p ->
  now < Auth.exp p ->
  Auth.verify_token cfg token now = Ok p /\ Auth.sub p = Some subject.
Proof.
  intros token p Hp Hlt; split.
  - apply verify_token_ok_iff; repeat split; try assumption.
    unfold token, Auth.create_access_token in *; cbn in *.
    injection Hp as <-; reflexivity.
  - unfold token, Auth.create_access_token in Hp; cbn in Hp.
    injection Hp as <-; reflexivity.
Qed.

(** C9.  Whatever its signature, a token whose expiry is not after the
    time of verification is refused, with [InvalidToken], which the
    caller sees as [Unauthenticated]. *)
Theorem expired_token_never_verifies (cfg : Auth.Settings)
        (token : Auth.Token) (now : Z) (p : Auth.Payload)
        (Hp : Auth.payload token = Some p)
        (Hexpired : Auth.exp p <= now) :
  Auth.verify_token cfg token now = Raised InvalidToken
  /\ kind_of InvalidToken = Unauthenticated
  /\ forall q, Auth.verify_token cfg token now <> Ok q.
Proof.
  assert (H : Auth.verify_token cfg token now = Raised InvalidToken).
  { unfold Auth.verify_token; rewrite Hp.
    destruct (negb _); [reflexivity|].
    apply Z.leb_le in Hexpired; rewrite Hexpired; reflexivity. }
  split; [exact H | split; [reflexivity|]].
  intros q Hq; rewrite H in Hq; discriminate.
Qed.

(** A token issued at 0 with the default lifetime of 30 minutes, checked
    at that very instant and later. *)
Lemma expired_token_never_verifies_witness :
  Auth.payload Sample.expired
  = Some {| Auth.sub := Some "uid-alice"; Auth.iat := 0;
            Auth.exp := 1800000000 |}
  /\ 1800000000 <= 1800000000
  /\ Auth.verify_token Sample.cfg Sample.expired 1800000000
     = Raised InvalidToken.
Proof.
  split; [reflexivity | split; [lia|]].
  apply (proj1 (expired_token_never_verifies
                  Sample.cfg Sample.expired 1800000000
                  {| Auth.sub := Some "uid-alice"; Auth.iat := 0;
                     Auth.exp := 1800000000 |}
                  eq_refl (Z.le_refl 1800000000))).
Defined.

Example issued_token_accepted_before_expiry :
  is_ok (Auth.verify_token Sample.cfg Sample.expired 1799999999) = true.
Proof. reflexivity. Qed.

(** ** Identity resolver *)

(** In the later snapshot every failure of [get_current_user] is a 401:
    a token that does not verify, a payload without subject, and a
    subject that is not in the [user] table. *)
Lemma get_current_user_0215_unauthenticated (cfg : Auth.Settings)
      (token : Auth.Token) (db : Session) (now : Z) (e : Exn) :
  V0215.get_current_user cfg token db now = Raised e ->
  kind_of e = Unauthenticated.
Proof.
  unfold V0215.get_current_user, bind.
  destruct (Auth.verify_token cfg token now) as [p|e'] eqn:Hv.
  - destruct (Auth.sub p) as [uid|]; [|now intros [= <-]].
    destruct (String.eqb uid ""); [now intros [= <-]|].
    destruct (first _ (users db)); [discriminate | now intros [= <-]].
  - intros [= <-]; now apply verify_token_single_error in Hv.
Qed.

Lemma get_current_user_0215_unknown_subject (cfg : Auth.Settings)
      (token : Auth.Token) (db : Session) (now : Z) (p : Auth.Payload)
      (uid : string) :
  Auth.verify_token cfg token now = Ok p ->
  Auth.sub p = Some uid ->
  first (fun u => String.eqb (User.id u) uid) (users db) = None ->
  V0215.get_current_user cfg token db now
  = Raised (HTTPException 401 "Could not validate credentials" []).
Proof.
  unfold V0215.get_current_user, bind; intros -> -> ->.
  destruct (String.eqb uid ""); reflexivity.
Qed.

Lemma get_current_user_0215_bad_token (cfg : Auth.Settings)
      (token : Auth.Token) (db : Session) (now : Z) (e : Exn) :
  Auth.verify_token cfg token now = Raised e ->
  V0215.get_current_user cfg token db now = Raised InvalidToken.
Proof.
  intros Hv; destruct (verify_token_single_error _ _ _ _ Hv) as [-> _].
  unfold V0215.get_current_user, bind; rewrite Hv; reflexivity.
Qed.

(** The earlier snapshot answers an unknown subject with a 404. *)
Lemma get_current_user_0214_unknown_subject (cfg : Auth.Settings)
      (token : Auth.Token) (db : Session) (now : Z) (p : Auth.Payload)
      (uid : string) :
  Auth.verify_token cfg token now = Ok p ->
  Auth.sub p = Some uid ->
  first (fun u => String.eqb (User.id u) uid) (users db) = None ->
  V0214.get_current_user cfg token db now
  = Raised (HTTPException 404 "User not found" []).
Proof.
  unfold V0214.get_current_user; intros -> -> ->; reflexivity.
Qed.

(** C3, on the earlier snapshot: a token that verifies, for a subject
    that is in no row of the [user] table, is answered 404 "User not
    found", a [NotFound] and not an [Unauthenticated]; the later snapshot
    answers the same request with a 401. *)
Theorem get_current_user_0214_orphan_subject :
  Auth.verify_token Sample.cfg Sample.orphan 1000
  = Ok {| Auth.sub := Some "uid-gone"; Auth.iat := 1000;
          Auth.exp := 1800001000 |}
  /\ V0214.get_current_user Sample.cfg Sample.orphan Sample.db 1000
     = Raised (HTTPException 404 "User not found" [])
  /\ kind_of (HTTPException 404 "User not found" []) = NotFound
  /\ V0215.get_current_user Sample.cfg Sample.orphan Sample.db 1000
     = Raised (HTTPException 401 "Could not validate credentials" []).
Proof. repeat split; reflexivity. Qed.

(** ** Login *)

(** C2, as stated, fails: for a stored identity whose hash the scheme
    does not recognise, a login with a wrong password is answered by the
    scheme's exception, not by the 401 that an unknown email gets. *)
Lemma login_stored_email_may_raise :
  let unknown := {| username := "nobody@x.com"; form_password := "guess" |} in
  let wrong := {| username := "d@x.com"; form_password := "guess" |} in
  V0215.login_for_access_token Sample.ctx Sample.cfg unknown db_with_dave 7
  = Raised (HTTPException 401 "Incorrect username or password"
                          [("WWW-Authenticate", "Bearer")])
  /\ V0215.login_for_access_token Sample.ctx Sample.cfg wrong db_with_dave 7
     = Raised UnknownHashError
  /\ V0214.login_for_access_token Sample.ctx Sample.cfg wrong db_with_dave 7
     = Raised UnknownHashError
  /\ kind_of UnknownHashError <> Unauthenticated
  /\ V0215.login_for_access_token Sample.ctx Sample.cfg wrong db_with_dave 7
     <> V0215.login_for_access_token Sample.ctx Sample.cfg unknown
                                     db_with_dave 7.
Proof.
  cbv zeta; repeat split; try reflexivity; vm_compute; discriminate.
Qed.

(** C2, amended.  A login for an email that is in no row, and a login
    for a stored identity with a password for which [verify_password]
    returns false, raise the same exception: status 401, detail
    "Incorrect username or password" and the same header, in both
    snapshots. *)
Theorem login_failures_identical
        (pwd_context : Security.CryptContext) (cfg : Auth.Settings)
        (db : Session) (unknown wrong : LoginForm) (now now' : Z)
        (user : User.t)
        (Hunknown :
           first (fun u => String.eqb (User.email u) (username unknown))
                 (users db) = None)
        (Hstored :
           first (fun u => String.eqb (User.email u) (username wrong))
                 (users db) = Some user)
        (Hwrong :
           Security.verify_password pwd_context (form_password wrong)
                                    (User.hashed_password user) = Ok false) :
  let refused :=
    Raised (HTTPException 401 "Incorrect username or password"
                          [("WWW-Authenticate", "Bearer")]) in
  V0214.login_for_access_token pwd_context cfg unknown db now = refused
  /\ V0214.login_for_access_token pwd_context cfg wrong db now' = refused
  /\ V0215.login_for_access_token pwd_context cfg unknown db now = refused
  /\ V0215.login_for_access_token pwd_context cfg wrong db now' = refused
  /\ kind_of (HTTPException 401 "Incorrect username or password"
                            [("WWW-Authenticate", "Bearer")])
     = Unauthenticated.
Proof.
  unfold V0214.login_for_access_token, V0215.login_for_access_token, bind.
  rewrite Hunknown, Hstored, Hwrong; cbn.
  repeat split; reflexivity.
Qed.

Lemma login_failures_identical_witness :
  let unknown := {| username := "nobody@x.com"; form_password := "x" |} in
  let wrong := {| username := "a@x.com"; form_password := "password124" |} in
  V0215.login_for_access_token Sample.ctx Sample.cfg unknown Sample.db 7
  = V0215.login_for_access_token Sample.ctx Sample.cfg wrong Sample.db 9
  /\ V0214.login_for_access_token Sample.ctx Sample.cfg unknown Sample.db 7
     = V0214.login_for_access_token Sample.ctx Sample.cfg wrong Sample.db 9.
Proof.
  intros unknown wrong.
  destruct (login_failures_identical Sample.ctx Sample.cfg Sample.db
              unknown wrong 7 9 Sample.alice eq_refl eq_refl eq_refl)
    as (H1 & H2 & H3 & H4 & _).
  split; [rewrite H3, H4 | rewrite H1, H2]; reflexivity.
Defined.

Example login_accepts_right_password :
  is_ok (V0215.login_for_access_token Sample.ctx Sample.cfg
           {| username := "a@x.com"; form_password := "password123" |}
           Sample.db 7) = true.
Proof. reflexivity. Qed.

(** ** The schema's promises are kept by every write *)

Lemma NoDup_map_eq {A B : Type} (f : A -> B) (l : list A) (a b : A) :
  NoDup (map f l) -> In a l -> In b l -> f a = f b -> a = b.
Proof.
  induction l as [|x l IH]; simpl; [contradiction|].
  intros Hnd Ha Hb Hf; inversion Hnd as [|? ? Hnotin Hnd']; subst.
  destruct Ha as [<-|Ha], Hb as [<-|Hb]; auto.
  - exfalso; apply Hnotin; rewrite Hf; now apply in_map.
  - exfalso; apply Hnotin; rewrite <- Hf; now apply in_map.
Qed.

Lemma filter_keeps_keys_distinct {Row Key : Type} (key : Row -> Key)
      (keep : Row -> bool) (rows : list Row)
      (Hdistinct : NoDup (map key rows)) :
  NoDup (map key (filter keep rows)).
Proof.
  induction rows as [|x rows IH]; simpl; [constructor|].
  inversion Hdistinct as [|? ? Hnotin Hrest]; subst.
  destruct (keep x); simpl; [constructor|]; auto.
  intros Hin; apply Hnotin.
  apply in_map_iff in Hin; destruct Hin as (y & Hy & Hin).
  apply filter_In in Hin; rewrite <- Hy; apply in_map; tauto.
Qed.

Lemma id_is_spec (i : Z) (t : Task.t) :
  id_is i t = true <-> Task.id t = Some i.
Proof.
  unfold id_is; destruct (Task.id t) as [j|]; [|split; discriminate].
  rewrite Z.eqb_eq; split; [now intros -> | now intros [= ->]].
Qed.

Lemma consistent_empty : consistent Database.empty.
Proof. split; simpl; constructor. Qed.

Lemma NoDup_snoc {A : Type} (l : list A) (a : A) :
  NoDup l -> ~ In a l -> NoDup (l ++ [a]).
Proof.
  intros Hnd Hnotin.
  apply NoDup_Add with (a := a) (l := l); [|split; assumption].
  rewrite <- (app_nil_r l) at 1; apply Add_app.
Qed.

(** A row that [add_user] lets in shares neither id nor email with a
    stored one. *)
Lemma add_user_fresh (u : User.t) (db db' : Session) :
  add_user u db = Ok db' ->
  db' = {| users := users db ++ [u]; tasks := tasks db;
           task_seq := task_seq db |}
  /\ ~ In (User.id u) (map User.id (users db))
  /\ ~ In (User.email u) (map User.email (users db)).
Proof.
  unfold add_user.
  destruct (existsb _ (users db)) eqn:Hex; [discriminate|].
  intros [= <-]; split; [reflexivity|].
  split; intros Hin; apply in_map_iff in Hin; destruct Hin as (v & Hv & Hin);
    (assert (Hf : existsb
               (fun v => String.eqb (User.id v) (User.id u)
                         || String.eqb (User.email v) (User.email u))
               (users db) = true);
     [apply existsb_exists; exists v; split; [exact Hin|];
      rewrite Hv, String.eqb_refl; auto using orb_true_r
     | congruence]).
Qed.

Lemma add_user_consistent (u : User.t) (db db' : Session) :
  consistent db -> add_user u db = Ok db' -> consistent db'.
Proof.
  intros [Ha Ht Hu He] Hadd.
  destruct (add_user_fresh _ _ _ Hadd) as (-> & Hid & Hmail).
  split; simpl; auto; rewrite map_app; simpl; now apply NoDup_snoc.
Qed.

Lemma add_task_ok (t : Task.t) (db db' : Session) (row : Task.t) :
  add_task t db = Ok (row, db') ->
  Task.id row = Some (task_seq db)
  /\ Task.user_id row = Task.user_id t
  /\ Task.title row = Task.title t
  /\ Task.description row = Task.description t
  /\ Task.completed row = Task.completed t
  /\ Task.created_at row = Task.created_at t
  /\ Task.updated_at row = Task.updated_at t
  /\ users db' = users db
  /\ tasks db' = (tasks db ++ [row])%list
  /\ task_seq db' = task_seq db + 1.
Proof.
  unfold add_task; destruct (existsb _ (users db)); [|discriminate].
  intros [= <- <-]; simpl; repeat split; reflexivity.
Qed.

Lemma add_task_consistent (t : Task.t) (db db' : Session) (row : Task.t) :
  consistent db -> add_task t db = Ok (row, db') -> consistent db'.
Proof.
  intros [Ha Ht Hu He] Hadd.
  destruct (add_task_ok _ _ _ _ Hadd)
    as (Hid & _ & _ & _ & _ & _ & _ & Husers & Htasks & Hseq).
  split; rewrite ?Husers, ?Htasks, ?Hseq; auto.
  - apply Forall_app; split.
    + eapply Forall_impl; [|exact Ha].
      intros r (i & Hi & Hlt); exists i; split; [exact Hi | lia].
    + constructor; [|constructor].
      exists (task_seq db); split; [exact Hid | lia].
  - rewrite map_app; simpl; apply NoDup_snoc; [exact Ht|].
    intros Hin; apply in_map_iff in Hin; destruct Hin as (r & Hr & Hin).
    rewrite Forall_forall in Ha; destruct (Ha r Hin) as (i & Hi & Hlt).
    rewrite Hid, Hi in Hr; injection Hr as ->; lia.
Qed.

Lemma merge_task_ids (t : Task.t) (db : Session) :
  map Task.id (tasks (merge_task t db)) = map Task.id (tasks db).
Proof.
  unfold merge_task; simpl; rewrite map_map; apply map_ext.
  intros r; destruct (Task.id t) as [i|] eqn:Hi; [|reflexivity].
  destruct (id_is i r) eqn:Hr; [|reflexivity].
  apply id_is_spec in Hr; congruence.
Qed.

Lemma merge_task_consistent (t : Task.t) (db : Session) :
  consistent db -> consistent (merge_task t db).
Proof.
  intros [Ha Ht Hu He]; split; auto.
  - rewrite Forall_forall in *; intros r Hin.
    assert (Hid : In (Task.id r) (map Task.id (tasks (merge_task t db))))
      by now apply in_map.
    rewrite merge_task_ids in Hid; apply in_map_iff in Hid.
    destruct Hid as (r' & Hr' & Hin'); rewrite <- Hr'; exact (Ha r' Hin').
  - rewrite merge_task_ids; exact Ht.
Qed.

Lemma delete_consistent (t : Task.t) (db : Session) :
  consistent db -> consistent (Database.delete t db).
Proof.
  intros [Ha Ht Hu He]; split; simpl; auto.
  - rewrite Forall_forall in *; intros r Hin.
    apply filter_In in Hin; apply Ha; tauto.
  - now apply filter_keeps_keys_distinct.
Qed.

(** Every handler that writes leaves a consistent store consistent,
    whatever it answers. *)
Lemma register_row_consistent (pwd_context : Security.CryptContext)
      (user_in : UserCreate) (db db' : Session) (uuid4 salt : string)
      (now : Z) (r : Response User.t) :
  consistent db ->
  App.register_row pwd_context user_in db uuid4 salt now = (r, db') ->
  consistent db'.
Proof.
  intros Hc; unfold App.register_row.
  destruct (first _ (users db)); [now intros [= _ <-]|].
  destruct (Security.get_password_hash _ _ _); [|now intros [= _ <-]].
  destruct (add_user _ db) as [db1|e] eqn:Hadd; intros [= _ <-]; auto.
  eapply add_user_consistent; eauto.
Qed.

Lemma create_task_consistent (task_in : TaskCreate) (u : User.t)
      (db db' : Session) (t0 t1 : Z) (r : Response Task.t) :
  consistent db ->
  App.create_task task_in u db t0 t1 = (r, db') -> consistent db'.
Proof.
  intros Hc; unfold App.create_task.
  destruct (add_task _ db) as [[row db1]|e] eqn:Hadd; intros [= _ <-]; auto.
  eapply add_task_consistent; eauto.
Qed.

Lemma update_task_consistent (id : Z) (upd : TaskUpdate) (u : User.t)
      (db db' : Session) (now : Z) (r : Response Task.t) :
  consistent db ->
  App.update_task id upd u db now = (r, db') -> consistent db'.
Proof.
  intros Hc; unfold App.update_task.
  destruct (first _ (tasks db)); [|now intros [= _ <-]].
  destruct (upd_title upd) as [|[s|]]; intros [= _ <-]; auto;
    now apply merge_task_consistent.
Qed.

Lemma delete_task_consistent (id : Z) (u : User.t) (db db' : Session)
      (r : Response string) :
  consistent db -> App.delete_task id u db = (r, db') -> consistent db'.
Proof.
  intros Hc; unfold App.delete_task.
  destruct (first _ (tasks db)); intros [= _ <-]; auto.
  now apply delete_consistent.
Qed.

Lemma toggle_task_completion_consistent (id : Z) (u : User.t)
      (db db' : Session) (now : Z) (r : Response Task.t) :
  consistent db ->
  V0214.toggle_task_completion id u db now = (r, db') -> consistent db'.
Proof.
  intros Hc; unfold V0214.toggle_task_completion.
  destruct (first _ (tasks db)); intros [= _ <-]; auto.
  now apply merge_task_consistent.
Qed.

Lemma reachable_consistent (pwd_context : Security.CryptContext)
      (db : Session) :
  reachable pwd_context db -> consistent db.
Proof.
  induction 1;
    eauto using consistent_empty, register_row_consistent,
      create_task_consistent, update_task_consistent,
      delete_task_consistent, toggle_task_completion_consistent.
Qed.

Lemma sample_db_consistent : consistent Sample.db.
Proof.
  split; simpl.
  - repeat constructor; eexists; (split; [reflexivity | lia]).
  - repeat constructor; simpl; intuition discriminate.
  - repeat constructor; simpl; intuition discriminate.
  - repeat constructor; simpl; intuition discriminate.
Qed.

(** ** Ordering *)

Lemma insert_by_perm {A : Type} (le : A -> A -> bool) (x : A) (l : list A) :
  Permutation (insert_by le x l) (x :: l).
Proof.
  induction l as [|y l IH]; simpl; [reflexivity|].
  destruct (le x y); [reflexivity|].
  rewrite IH; apply perm_swap.
Qed.

Lemma order_by_perm {A : Type} (le : A -> A -> bool) (l : list A) :
  Permutation (order_by le l) l.
Proof.
  unfold order_by; induction l as [|x l IH]; simpl; [reflexivity|].
  rewrite insert_by_perm; now constructor.
Qed.

Section Sorting.
Context {A : Type} (le : A -> A -> bool).
Hypothesis le_total : forall a b, le a b = true \/ le b a = true.

Lemma insert_by_sorted (x : A) (l : list A) :
  Sorted (fun a b => le a b = true) l ->
  Sorted (fun a b => le a b = true) (insert_by le x l).
Proof.
  induction l as [|y l IH]; simpl; intros Hs.
  - repeat constructor.
  - destruct (le x y) eqn:Hxy.
    + constructor; [exact Hs | constructor; exact Hxy].
    + inversion Hs as [|? ? Hs' Hhd]; subst.
      constructor; [now apply IH|].
      assert (Hyx : le y x = true)
        by (destruct (le_total x y); [congruence|auto]).
      destruct l as [|z l]; simpl; [now constructor|].
      destruct (le x z); constructor; auto.
      now inversion Hhd.
Qed.

Lemma order_by_sorted (l : list A) :
  Sorted (fun a b => le a b = true) (order_by le l).
Proof.
  unfold order_by; induction l as [|x l IH]; simpl; [constructor|].
  now apply insert_by_sorted.
Qed.
End Sorting.

(** ** Ownership gate *)

(** A lookup by id as somebody who does not own the row finds nothing. *)
Lemma foreign_lookup_none (db : Session) (t : Task.t) (i : Z) (b : User.t) :
  NoDup (map Task.id (tasks db)) ->
  In t (tasks db) -> Task.id t = Some i -> owned_by b t = false ->
  first (fun r => id_is i r && owned_by b r) (tasks db) = None.
Proof.
  intros Hpk Hin Hid Hown; apply first_none_all; intros r Hr.
  destruct (id_is i r) eqn:Hir; [|reflexivity].
  apply id_is_spec in Hir.
  assert (r = t) as -> by (eapply NoDup_map_eq; eauto; congruence).
  exact Hown.
Qed.

Lemma list_tasks_0214_owned (status : option Status) (sort : option string)
      (u : User.t) (db : Session) (l : list Task.t) (t : Task.t) :
  V0214.list_tasks status sort u db = Ok l -> In t l ->
  In t (tasks db) /\ owned_by u t = true.
Proof.
  unfold V0214.list_tasks; intros [= <-] Hin.
  assert (Hq : In t (match status with
                     | Some completed =>
                         filter (fun t => Bool.eqb (Task.completed t) true)
                                (filter (owned_by u) (tasks db))
                     | Some _ =>
                         filter (fun t => Bool.eqb (Task.completed t) false)
                                (filter (owned_by u) (tasks db))
                     | None => filter (owned_by u) (tasks db)
                     end)).
  { destruct sort as [key|]; [|exact Hin].
    destruct (String.eqb key "created_at");
      [eapply Permutation_in; [apply order_by_perm | exact Hin]|].
    destruct (String.eqb key "title");
      [eapply Permutation_in; [apply order_by_perm | exact Hin]|].
    exact Hin. }
  assert (Hq' : In t (filter (owned_by u) (tasks db))).
  { destruct status as [[| |]|]; try exact Hq;
      apply filter_In in Hq; tauto. }
  apply filter_In in Hq'; exact Hq'.
Qed.

Lemma list_tasks_0215_owned (status_filter : option Status) (u : User.t)
      (db : Session) (l : list Task.t) (t : Task.t) :
  V0215.list_tasks status_filter u db = Ok l -> In t l ->
  In t (tasks db) /\ owned_by u t = true.
Proof.
  unfold V0215.list_tasks; intros [= <-] Hin.
  assert (Hq : In t (filter (owned_by u) (tasks db))).
  { destruct status_filter; try exact Hin; apply filter_In in Hin; tauto. }
  apply filter_In in Hq; exact Hq.
Qed.

(** C1.  Let [t] be a stored task of [a] and [b] another identity.  As
    [b], [get], [update], [delete] and [toggle_complete] on the id of [t]
    all raise 404 "Task not found" (a [NotFound], not a [Forbidden]) and
    write nothing, and no listing, whatever the filter and the ordering,
    contains [t]. *)
Theorem foreign_task_not_found (db : Session) (a b : User.t) (t : Task.t)
        (i : Z)
        (Hpk : NoDup (map Task.id (tasks db)))
        (Hin : In t (tasks db)) (Hid : Task.id t = Some i)
        (Hown : Task.user_id t = User.id a)
        (Hdistinct : User.id a <> User.id b) :
  let refused := HTTPException 404 "Task not found" [] in
  App.get_task i b db = Raised refused
  /\ (forall upd now, App.update_task i upd b db now = (Raised refused, db))
  /\ App.delete_task i b db = (Raised refused, db)
  /\ (forall now,
         V0214.toggle_task_completion i b db now = (Raised refused, db))
  /\ (forall status sort l,
         V0214.list_tasks status sort b db = Ok l -> ~ In t l)
  /\ (forall status_filter l,
         V0215.list_tasks status_filter b db = Ok l -> ~ In t l)
  /\ kind_of refused = NotFound
  /\ kind_of refused <> Forbidden.
Proof.
  assert (Hnot : owned_by b t = false).
  { unfold owned_by; rewrite Hown; now apply String.eqb_neq. }
  pose proof (foreign_lookup_none db t i b Hpk Hin Hid Hnot) as Hnone.
  unfold App.get_task, App.update_task, App.delete_task,
    V0214.toggle_task_completion, not_found.
  rewrite Hnone; cbn zeta.
  repeat split; try reflexivity.
  - intros status sort l Hl Ht.
    apply (list_tasks_0214_owned _ _ _ _ _ _ Hl) in Ht; destruct Ht; congruence.
  - intros status_filter l Hl Ht.
    apply (list_tasks_0215_owned _ _ _ _ _ Hl) in Ht; destruct Ht; congruence.
  - discriminate.
Qed.

(** Bob asks for task 1, which is Alice's. *)
Lemma foreign_task_not_found_witness :
  App.get_task 1 Sample.bob Sample.db
  = Raised (HTTPException 404 "Task not found" [])
  /\ App.delete_task 1 Sample.bob Sample.db
     = (Raised (HTTPException 404 "Task not found" []), Sample.db).
Proof.
  destruct (foreign_task_not_found Sample.db Sample.alice Sample.bob
              Sample.t1 1 (task_ids_unique _ sample_db_consistent)
              (or_introl eq_refl) eq_refl eq_refl
              ltac:(discriminate))
    as (Hget & _ & Hdel & _).
  split; [exact Hget | exact Hdel].
Defined.

(** The owner, for comparison, gets the row. *)
Example owner_gets_task :
  App.get_task 1 Sample.alice Sample.db = Ok Sample.t1.
Proof. reflexivity. Qed.

(** ** Listing *)

Lemma str_leb_trans (a b c : string) :
  String.leb a b = true -> String.leb b c = true -> String.leb a c = true.
Proof.
  unfold String.leb; revert b c.
  induction a as [|x a IH]; intros [|y b] [|z c]; simpl; try congruence.
  destruct (Ascii.compare x y) eqn:Hxy; try congruence.
  - apply Ascii.compare_eq_iff in Hxy; subst y.
    destruct (Ascii.compare x z); try congruence; apply IH.
  - destruct (Ascii.compare y z) eqn:Hyz; try congruence.
    + apply Ascii.compare_eq_iff in Hyz; subst z; now rewrite Hxy.
    + intros _ _; unfold Ascii.compare in *.
      rewrite N.compare_lt_iff in Hxy, Hyz.
      assert (Hxz : (N_of_ascii x < N_of_ascii z)%N) by lia.
      apply N.compare_lt_iff in Hxz; now rewrite Hxz.
Qed.

Lemma filter_filter {A : Type} (p q : A -> bool) (l : list A) :
  filter q (filter p l) = filter (fun x => p x && q x) l.
Proof.
  induction l as [|x l IH]; simpl; [reflexivity|].
  destruct (p x); simpl; [destruct (q x)|]; now rewrite IH.
Qed.

(** Before any ordering, both snapshots select the same rows. *)
Lemma list_tasks_0215_visible (status_filter : option Status) (u : User.t)
      (db : Session) :
  V0215.list_tasks status_filter u db = Ok (visible status_filter u db).
Proof.
  unfold V0215.list_tasks, visible, status_matches; f_equal.
  destruct status_filter as [s|].
  - rewrite filter_filter; apply filter_ext; intros t; f_equal.
    destruct s, (Task.completed t); reflexivity.
  - apply filter_ext; intros t; now rewrite andb_true_r.
Qed.

Lemma list_tasks_0214_unordered (status : option Status)
      (sort : option string) (u : User.t) (db : Session) :
  sort <> Some "created_at" -> sort <> Some "title" ->
  V0214.list_tasks status sort u db = Ok (visible status u db).
Proof.
  intros Hc Ht; rewrite <- list_tasks_0215_visible.
  unfold V0214.list_tasks, V0215.list_tasks; f_equal.
  assert (Hsort : forall q : list Task.t,
             match sort with
             | Some key =>
                 if String.eqb key "created_at" then
                   order_by
                     (fun a b => Task.created_at a <=? Task.created_at b) q
                 else if String.eqb key "title" then
                   order_by
                     (fun a b => String.leb (Task.title a) (Task.title b)) q
                 else q
             | None => q
             end = q).
  { intros q; destruct sort as [key|]; [|reflexivity].
    destruct (String.eqb_spec key "created_at"); [congruence|].
    destruct (String.eqb_spec key "title"); [congruence|reflexivity]. }
  rewrite Hsort; destruct status as [[| |]|]; try reflexivity;
    apply filter_ext; intros t; destruct (Task.completed t); reflexivity.
Qed.

(** C10.  In the earlier snapshot, [sort = "created_at"] gives the
    caller's tasks (those the status filter lets through) in ascending
    order of [created_at], [sort = "title"] gives them in ascending order
    of [title], and any other or no [sort] gives them as the store holds
    them.  The later snapshot has no [sort] at all and always gives them
    as the store holds them. *)
Theorem list_tasks_ordering (status : option Status) (u : User.t)
        (db : Session) :
  (exists l, V0214.list_tasks status (Some "created_at") u db = Ok l
             /\ StronglySorted by_created_at l
             /\ Permutation l (visible status u db))
  /\ (exists l, V0214.list_tasks status (Some "title") u db = Ok l
                /\ StronglySorted by_title l
                /\ Permutation l (visible status u db))
  /\ (forall sort, sort <> Some "created_at" -> sort <> Some "title" ->
                   V0214.list_tasks status sort u db
                   = Ok (visible status u db))
  /\ V0215.list_tasks status u db = Ok (visible status u db)
  /\ (forall sort, sort <> Some "created_at" -> sort <> Some "title" ->
                   V0214.list_tasks status sort u db
                   = V0215.list_tasks status u db).
Proof.
  pose proof (list_tasks_0214_unordered status None u db
                ltac:(discriminate) ltac:(discriminate)) as Hplain.
  unfold V0214.list_tasks in Hplain; injection Hplain as Hplain.
  split; [|split; [|split; [|split]]].
  - eexists; split; [reflexivity|]; cbn; rewrite Hplain; split.
    + apply Sorted_StronglySorted; [intros a b c; unfold by_created_at; lia|].
      eapply Sorted_ind with (P := Sorted by_created_at);
        [constructor | | apply order_by_sorted; intros a b; lia].
      intros a l _ IH Hhd; constructor; [exact IH|].
      destruct Hhd as [|b l Hab]; constructor; now apply Z.leb_le.
    + apply order_by_perm.
  - eexists; split; [reflexivity|]; cbn; rewrite Hplain; split.
    + apply Sorted_StronglySorted;
        [intros a b c; unfold by_title; apply str_leb_trans|].
      apply order_by_sorted; intros a b; apply String.leb_total.
    + apply order_by_perm.
  - intros sort Hc Ht; now apply list_tasks_0214_unordered.
  - apply list_tasks_0215_visible.
  - intros sort Hc Ht; rewrite list_tasks_0215_visible.
    now apply list_tasks_0214_unordered.
Qed.

Lemma list_tasks_ordering_witness :
  V0214.list_tasks None (Some "created_at") Sample.alice Sample.db
  = Ok [Sample.t2; Sample.t1]
  /\ V0214.list_tasks None (Some "title") Sample.alice Sample.db
     = Ok [Sample.t2; Sample.t1]
  /\ V0214.list_tasks None (Some "priority") Sample.alice Sample.db
     = Ok [Sample.t1; Sample.t2].
Proof.
  split; [reflexivity | split; [reflexivity|]].
  apply (proj1 (proj2 (proj2 (list_tasks_ordering None Sample.alice
                                                  Sample.db)))
           (Some "priority")); discriminate.
Defined.

(** ** Registration *)

Lemma email_lookup_finds (db : Session) (mail : string) (stored : User.t) :
  In stored (users db) -> User.email stored = mail ->
  exists v, first (fun u => String.eqb (User.email u) mail) (users db)
            = Some v.
Proof.
  intros Hin Hmail.
  destruct (first _ (users db)) as [v|] eqn:Hf; [now exists v|].
  rewrite first_none_all in Hf; specialize (Hf stored Hin); cbn in Hf.
  rewrite Hmail, String.eqb_refl in Hf; discriminate.
Qed.

Lemma register_row_emails_unique (pwd_context : Security.CryptContext)
      (user_in : UserCreate) (db db' : Session) (uuid4 salt : string)
      (now : Z) (r : Response User.t) :
  NoDup (map User.email (users db)) ->
  App.register_row pwd_context user_in db uuid4 salt now = (r, db') ->
  NoDup (map User.email (users db'))
  /\ (is_ok r = false -> db' = db).
Proof.
  intros Hnd Hrow; destruct r as [u|e].
  - split; [|discriminate].
    apply register_row_ok in Hrow.
    destruct Hrow as (Hnone & _ & _ & Hmail & _ & Husers & _).
    rewrite Husers, map_app; simpl; apply NoDup_snoc; [exact Hnd|].
    intros Hin; apply in_map_iff in Hin; destruct Hin as (v & Hv & Hin).
    rewrite first_none_all in Hnone; specialize (Hnone v Hin); cbn in Hnone.
    rewrite Hv, Hmail, String.eqb_refl in Hnone; discriminate.
  - apply register_row_raised in Hrow; subst db'; auto.
Qed.

(** C4.  When the email of the request is already that of a stored
    identity, [register_user] raises 409 "Email already registered",
    whatever the password (and before the password is even hashed), and
    the store is as it was; the store itself refuses a second row with
    that email.  Whatever a registration answers, emails stay pairwise
    distinct, and a registration that raises has added no identity. *)
Theorem register_duplicate_email
        (pwd_context : Security.CryptContext) (cfg : Auth.Settings)
        (db : Session) (user_in : UserCreate) (uuid4 salt : string)
        (t0 t1 : Z) (stored : User.t)
        (Hunique : NoDup (map User.email (users db)))
        (Hin : In stored (users db))
        (Hmail : User.email stored = email user_in) :
  let conflict := HTTPException 409 "Email already registered" [] in
  V0215.register_user pwd_context cfg user_in db uuid4 salt t0 t1
  = (Raised conflict, db)
  /\ V0214.register_user pwd_context cfg user_in db uuid4 salt t0 t1
     = (Raised conflict, db)
  /\ kind_of conflict = Conflict
  /\ (forall row, User.email row = email user_in ->
                  add_user row db = Raised IntegrityError)
  /\ (forall other uuid4' salt' t0' t1' r db',
         V0215.register_user pwd_context cfg other db uuid4' salt' t0' t1'
         = (r, db')
         \/ V0214.register_user pwd_context cfg other db uuid4' salt' t0' t1'
            = (r, db') ->
         NoDup (map User.email (users db'))
         /\ (is_ok r = false -> db' = db)).
Proof.
  destruct (email_lookup_finds db (email user_in) stored Hin Hmail)
    as [v Hv].
  assert (Hrow : App.register_row pwd_context user_in db uuid4 salt t0
                 = (Raised (HTTPException 409 "Email already registered" []),
                    db))
    by (unfold App.register_row; now rewrite Hv).
  cbn zeta; unfold V0215.register_user, V0214.register_user.
  rewrite Hrow; repeat split.
  - intros row Hrowmail; unfold add_user.
    replace (existsb _ (users db)) with true; [reflexivity|].
    symmetry; apply existsb_exists; exists stored; split; [exact Hin|].
    rewrite Hmail, Hrowmail, String.eqb_refl; apply orb_true_r.
  - destruct H as [H|H];
      destruct (App.register_row pwd_context other db uuid4' salt' t0')
        as [[u|e] db1] eqn:Hother; injection H as <- <-;
      now destruct (register_row_emails_unique _ _ _ _ _ _ _ _
                      Hunique Hother).
  - destruct H as [H|H];
      destruct (App.register_row pwd_context other db uuid4' salt' t0')
        as [[u|e] db1] eqn:Hother; injection H as <- <-;
      try discriminate;
      now destruct (register_row_emails_unique _ _ _ _ _ _ _ _
                      Hunique Hother) as [_ Hsame]; auto.
Qed.

(** Alice's email again, with another password. *)
Lemma register_duplicate_email_witness :
  V0215.register_user Sample.ctx Sample.cfg
    {| email := "a@x.com"; password := "another-password" |}
    Sample.db "uid-new" "ns" 600 601
  = (Raised (HTTPException 409 "Email already registered" []), Sample.db).
Proof.
  apply (proj1 (register_duplicate_email Sample.ctx Sample.cfg Sample.db
                  {| email := "a@x.com"; password := "another-password" |}
                  "uid-new" "ns" 600 601 Sample.alice
                  (emails_unique _ sample_db_consistent)
                  (or_introl eq_refl) eq_refl)).
Defined.

(** Registering twice in a row: the second attempt is the conflict. *)
Lemma second_registration_conflicts
      (pwd_context : Security.CryptContext) (cfg : Auth.Settings)
      (db db' : Session) (user_in : UserCreate) (uuid4 salt : string)
      (t0 t1 : Z) (out : TokenOut) (password' uuid4' salt' : string)
      (t0' t1' : Z) :
  V0215.register_user pwd_context cfg user_in db uuid4 salt t0 t1
  = (Ok out, db') ->
  V0215.register_user pwd_context cfg
    {| email := email user_in; password := password' |}
    db' uuid4' salt' t0' t1'
  = (Raised (HTTPException 409 "Email already registered" []), db').
Proof.
  unfold V0215.register_user at 1.
  destruct (App.register_row _ _ _ _ _ _) as [[u|e] db1] eqn:Hrow;
    [|discriminate].
  intros [= _ <-].
  pose proof (registered_user_found _ _ _ _ _ _ _ _ Hrow) as Hfound.
  unfold V0215.register_user, App.register_row; cbn [email].
  now rewrite Hfound.
Qed.

Example register_fresh_email_succeeds :
  is_ok (fst (V0215.register_user Sample.ctx Sample.cfg
                {| email := "c@x.com"; password := "password123" |}
                Sample.db "uid-carol" "nc" 600 601)) = true.
Proof. reflexivity. Qed.

(** ** Task store *)

(** C5.  A successful [update_task] gives back the row it found for the
    caller with: [id], [user_id] and [created_at] as they were;
    [updated_at] set to the clock reading of this update; [title] and
    [description] as they were unless given; [completed] as it was unless
    [status] was given, and then true exactly for [completed] (the status
    itself is kept nowhere).  In the store that row is overwritten and
    every row with another id, and the [user] table, are as before. *)
Theorem update_changes_only_supplied
        (id : Z) (task_update : TaskUpdate) (current_user : User.t)
        (db db' : Session) (now : Z) (task' : Task.t)
        (Hok : App.update_task id task_update current_user db now
               = (Ok task', db')) :
  exists task,
    first (fun t => id_is id t && owned_by current_user t) (tasks db)
    = Some task
    /\ Task.id task' = Some id /\ Task.id task = Some id
    /\ Task.user_id task' = Task.user_id task
    /\ Task.user_id task' = User.id current_user
    /\ Task.created_at task' = Task.created_at task
    /\ Task.updated_at task' = now
    /\ (upd_title task_update = Unset -> Task.title task' = Task.title task)
    /\ (forall v, upd_title task_update = Given v ->
                  v = Some (Task.title task'))
    /\ (upd_description task_update = Unset ->
        Task.description task' = Task.description task)
    /\ (forall v, upd_description task_update = Given v ->
                  Task.description task' = v)
    /\ (upd_status task_update = Unset ->
        Task.completed task' = Task.completed task)
    /\ (forall v, upd_status task_update = Given v ->
                  Task.completed task'
                  = match v with Some completed => true | _ => false end)
    /\ users db' = users db
    /\ tasks db' = map (fun r => if id_is id r then task' else r) (tasks db).
Proof.
  unfold App.update_task in Hok.
  destruct (first _ (tasks db)) as [task|] eqn:Hfind; [|discriminate].
  exists task; split; [reflexivity|].
  apply first_some_in in Hfind; destruct Hfind as [Hin Hp].
  apply andb_prop in Hp; destruct Hp as [Hid Hown].
  apply id_is_spec in Hid; apply String.eqb_eq in Hown.
  destruct (upd_title task_update) as [|[s|]] eqn:Ht; [| |discriminate];
    injection Hok as <- <-; cbn; rewrite ?Hid;
    (repeat split; try congruence; try discriminate; try reflexivity;
     try (intros v Hv; rewrite Hv; destruct v as [[| |]|]; reflexivity);
     try (intros v Hv; rewrite Hv; reflexivity);
     try (intros ->; reflexivity)).
Qed.

(** An owner's update goes through unless it sets [title] to [null]. *)
Lemma update_task_succeeds (id : Z) (task_update : TaskUpdate)
      (current_user : User.t) (db : Session) (now : Z) (task : Task.t) :
  first (fun t => id_is id t && owned_by current_user t) (tasks db)
  = Some task ->
  upd_title task_update <> Given None ->
  exists task', App.update_task id task_update current_user db now
                = (Ok task', merge_task task' db).
Proof.
  intros Hfind Ht; unfold App.update_task; rewrite Hfind.
  destruct (upd_title task_update) as [|[s|]]; [| |congruence];
    eexists; reflexivity.
Qed.

(** Alice renames task 1 at time 900. *)
Lemma update_changes_only_supplied_witness :
  let task' :=
    {| Task.id := Some 1; Task.user_id := "uid-alice";
       Task.title := "rewrite"; Task.description := Some "the report";
       Task.completed := false;
       Task.created_at := 300; Task.updated_at := 900 |} in
  App.update_task 1 (Sample.only_title "rewrite") Sample.alice Sample.db 900
  = (Ok task', merge_task task' Sample.db)
  /\ tasks (merge_task task' Sample.db) = [task'; Sample.t2; Sample.t3]
  /\ exists task,
      first (fun t => id_is 1 t && owned_by Sample.alice t)
            (tasks Sample.db) = Some task
      /\ Task.description task' = Task.description task
      /\ Task.completed task' = Task.completed task.
Proof.
  intros task'; split; [reflexivity | split; [reflexivity|]].
  destruct (update_changes_only_supplied
              1 (Sample.only_title "rewrite") Sample.alice Sample.db
              (merge_task task' Sample.db) 900 task' eq_refl)
    as (task & Hfind & _ & _ & _ & _ & _ & _ & _ & _ & Hd & _ & Hc & _).
  exists task; split; [exact Hfind | split; [exact (Hd eq_refl)|]].
  exact (Hc eq_refl).
Defined.

(** C6, as stated, fails on its last part: the two timestamps are two
    readings of the clock, and the second may be later than the first. *)
Lemma create_task_timestamps_may_differ :
  exists row db',
    App.create_task (TaskCreate_of_body "T1" None None) Sample.alice
                    Sample.db 1000 1001 = (Ok row, db')
    /\ Task.created_at row <> Task.updated_at row.
Proof.
  do 2 eexists; split; [reflexivity|]; cbn; discriminate.
Qed.

(** C6, amended.  For a caller that is in the [user] table, [create_task]
    stores and gives back a row with [completed] true exactly when the
    given status is [completed] (false for [pending], [in_progress] and
    no status), [user_id] the caller's id, [created_at] the first reading
    of the clock and [updated_at] the second; the two are equal exactly
    when the readings are. *)
Theorem create_task_stamps
        (title : string) (description : option string)
        (status : option Status) (current_user : User.t) (db : Session)
        (now_created now_updated : Z)
        (Huser : In current_user (users db)) :
  exists row db',
    App.create_task (TaskCreate_of_body title description status)
                    current_user db now_created now_updated = (Ok row, db')
    /\ Task.completed row
       = match status with Some completed => true | _ => false end
    /\ Task.user_id row = User.id current_user
    /\ Task.created_at row = now_created
    /\ Task.updated_at row = now_updated
    /\ (Task.created_at row = Task.updated_at row
        <-> now_created = now_updated)
    /\ Task.title row = title /\ Task.description row = description
    /\ Task.id row = Some (task_seq db)
    /\ tasks db' = (tasks db ++ [row])%list.
Proof.
  unfold App.create_task, add_task; cbn.
  replace (existsb _ (users db)) with true.
  - do 2 eexists; split; [reflexivity|]; cbn.
    repeat split; try tauto; destruct status as [[| |]|]; reflexivity.
  - symmetry; apply existsb_exists; exists current_user.
    split; [exact Huser | apply String.eqb_refl].
Qed.

Lemma create_task_stamps_witness :
  exists row db',
    App.create_task (TaskCreate_of_body "T1" None (Some completed))
                    Sample.alice Sample.db 1000 1000 = (Ok row, db')
    /\ Task.completed row = true
    /\ Task.user_id row = "uid-alice"
    /\ Task.created_at row = Task.updated_at row.
Proof.
  destruct (create_task_stamps "T1" None (Some completed) Sample.alice
              Sample.db 1000 1000 (or_introl eq_refl))
    as (row & db' & Hrun & Hc & Hu & _ & _ & Heq & _).
  exists row, db'; repeat split; auto.
  now apply Heq.
Defined.

(** The scenario of the tests: a task created without status is not
    completed, and toggling it completes it. *)
Example create_then_toggle :
  exists row db' row' db'',
    App.create_task (TaskCreate_of_body "T1" None None) Sample.alice
                    Sample.db 1000 1001 = (Ok row, db')
    /\ Task.completed row = false
    /\ V0214.toggle_task_completion 4 Sample.alice db' 1100
       = (Ok row', db'')
    /\ Task.completed row' = true /\ Task.updated_at row' = 1100.
Proof. do 4 eexists; repeat split. Qed.


(** * Further properties of the handlers *)

(** ** Lookups after a write *)

Lemma first_map_same {A : Type} (p : A -> bool) (f : A -> A) (l : list A) :
  (forall r, In r l -> p (f r) = p r) ->
  (forall r, In r l -> p r = true -> f r = r) ->
  first p (map f l) = first p l.
Proof.
  unfold first; induction l as [|x l IH]; simpl; intros Hp Hf; [reflexivity|].
  rewrite (Hp x (or_introl eq_refl)).
  destruct (p x) eqn:Hx.
  - now rewrite (Hf x (or_introl eq_refl) Hx).
  - apply IH; intros r Hr; [apply Hp | apply Hf]; now right.
Qed.

Lemma first_filter_same {A : Type} (p keep : A -> bool) (l : list A) :
  (forall r, In r l -> p r = true -> keep r = true) ->
  first p (filter keep l) = first p l.
Proof.
  unfold first; induction l as [|x l IH]; simpl; intros Hk; [reflexivity|].
  destruct (keep x) eqn:Hkeep; simpl.
  - destruct (p x); [reflexivity|]. apply IH; intros r Hr; apply Hk; now right.
  - destruct (p x) eqn:Hx.
    + rewrite (Hk x (or_introl eq_refl) Hx) in Hkeep; discriminate.
    + apply IH; intros r Hr; apply Hk; now right.
Qed.

Lemma first_app_some {A : Type} (p : A -> bool) (l l' : list A) (x : A) :
  first p l = Some x -> first p (l ++ l') = Some x.
Proof.
  unfold first; induction l as [|y l IH]; simpl; [discriminate|].
  destruct (p y); auto.
Qed.

Lemma id_is_other (i j : Z) (t : Task.t) :
  i <> j -> id_is i t = true -> id_is j t = false.
Proof.
  unfold id_is; destruct (Task.id t) as [k|]; [|discriminate].
  intros Hij Hi; apply Z.eqb_eq in Hi; subst k; now apply Z.eqb_neq.
Qed.

(** Overwriting the row of id [i] does not show under another id. *)
Lemma merge_task_other_id (t : Task.t) (db : Session) (i j : Z)
      (v : User.t) :
  Task.id t = Some i -> i <> j ->
  App.get_task j v (merge_task t db) = App.get_task j v db.
Proof.
  intros Hid Hij; unfold App.get_task, merge_task; cbn [tasks]; rewrite Hid.
  rewrite first_map_same; [reflexivity| |].
  - intros r _; destruct (id_is i r) eqn:Hr; [|reflexivity].
    rewrite (id_is_other i j r Hij Hr).
    assert (Ht : id_is i t = true) by now apply id_is_spec.
    now rewrite (id_is_other i j t Hij Ht).
  - intros r _ Hp; destruct (id_is i r) eqn:Hr; [|reflexivity].
    rewrite (id_is_other i j r Hij Hr) in Hp; discriminate.
Qed.

Lemma delete_other_id (t : Task.t) (db : Session) (i j : Z) (v : User.t) :
  Task.id t = Some i -> i <> j ->
  App.get_task j v (Database.delete t db) = App.get_task j v db.
Proof.
  intros Hid Hij; unfold App.get_task, Database.delete; cbn [tasks].
  rewrite Hid, first_filter_same; [reflexivity|].
  intros r _ Hp; apply andb_prop in Hp; destruct Hp as [Hj _].
  destruct (id_is i r) eqn:Hr; [|reflexivity].
  rewrite (id_is_other i j r Hij Hr) in Hj; discriminate.
Qed.

(** What the row found by an owner's lookup is. *)
Lemma owned_lookup (id : Z) (u : User.t) (db : Session) (task : Task.t) :
  first (fun t => id_is id t && owned_by u t) (tasks db) = Some task ->
  In task (tasks db) /\ Task.id task = Some id
  /\ Task.user_id task = User.id u.
Proof.
  intros Hf; apply first_some_in in Hf; destruct Hf as [Hin Hp].
  apply andb_prop in Hp; destruct Hp as [Hid Hown].
  apply id_is_spec in Hid; apply String.eqb_eq in Hown; auto.
Qed.

(** A handler that raises has written nothing: the store after it is the
    store before it, for [register_user] of both snapshots,
    [create_task], [update_task], [delete_task] and
    [toggle_task_completion]. *)
Theorem raising_handler_writes_nothing
        (pwd_context : Security.CryptContext) (cfg : Auth.Settings)
        (db db' : Session) (e : Exn) :
  (forall user_in uuid4 salt t0 t1,
      V0214.register_user pwd_context cfg user_in db uuid4 salt t0 t1
      = (Raised e, db')
      \/ V0215.register_user pwd_context cfg user_in db uuid4 salt t0 t1
         = (Raised e, db') -> db' = db)
  /\ (forall task_in u t0 t1,
         App.create_task task_in u db t0 t1 = (Raised e, db') -> db' = db)
  /\ (forall id upd u now,
         App.update_task id upd u db now = (Raised e, db') -> db' = db)
  /\ (forall id u, App.delete_task id u db = (Raised e, db') -> db' = db)
  /\ (forall id u now,
         V0214.toggle_task_completion id u db now = (Raised e, db') ->
         db' = db).
Proof.
  repeat split.
  - intros user_in uuid4 salt t0 t1.
    unfold V0214.register_user, V0215.register_user.
    destruct (App.register_row _ _ _ _ _ _) as [[u|e'] db1] eqn:Hrow;
      intros [H|H]; try discriminate; injection H as _ <-;
      now apply register_row_raised in Hrow.
  - intros task_in u t0 t1; unfold App.create_task.
    destruct (add_task _ db) as [[row db1]|e']; [discriminate|].
    now intros [= _ <-].
  - intros id upd u now; unfold App.update_task.
    destruct (first _ (tasks db)); [|now intros [= _ <-]].
    destruct (upd_title upd) as [|[s|]]; try discriminate.
    now intros [= _ <-].
  - intros id u; unfold App.delete_task.
    destruct (first _ (tasks db)); [discriminate | now intros [= _ <-]].
  - intros id u now; unfold V0214.toggle_task_completion.
    destruct (first _ (tasks db)); [discriminate | now intros [= _ <-]].
Qed.

(** Bob's attempt to delete Alice's task 1 leaves the store alone. *)
Lemma raising_handler_writes_nothing_witness :
  snd (App.delete_task 1 Sample.bob Sample.db) = Sample.db.
Proof.
  apply (proj1 (proj2 (proj2 (proj2
           (raising_handler_writes_nothing Sample.ctx Sample.cfg Sample.db
              (snd (App.delete_task 1 Sample.bob Sample.db))
              (HTTPException 404 "Task not found" []))))) 1 Sample.bob).
  reflexivity.
Defined.

(** A write on one task id is not seen under any other id, by anybody:
    after [create_task] every id but the new one, and after
    [update_task], [toggle_task_completion] and [delete_task] on [id]
    every id but [id], is answered by [get_task] as before. *)
Theorem writes_leave_other_ids (db db' : Session) (j : Z) (v : User.t) :
  (forall task_in u t0 t1 r,
      App.create_task task_in u db t0 t1 = (r, db') ->
      j <> task_seq db -> App.get_task j v db' = App.get_task j v db)
  /\ (forall id upd u now r,
         App.update_task id upd u db now = (r, db') ->
         j <> id -> App.get_task j v db' = App.get_task j v db)
  /\ (forall id u now r,
         V0214.toggle_task_completion id u db now = (r, db') ->
         j <> id -> App.get_task j v db' = App.get_task j v db)
  /\ (forall id u r,
         App.delete_task id u db = (r, db') ->
         j <> id -> App.get_task j v db' = App.get_task j v db).
Proof.
  repeat split.
  - intros task_in u t0 t1 r; unfold App.create_task.
    destruct (add_task _ db) as [[row db1]|e] eqn:Hadd;
      intros [= _ <-] Hj; [|reflexivity].
    destruct (add_task_ok _ _ _ _ Hadd)
      as (Hid & _ & _ & _ & _ & _ & _ & _ & Htasks & _).
    unfold App.get_task; rewrite Htasks.
    destruct (first _ (tasks db)) as [t|] eqn:Hf.
    + now rewrite (first_app_some _ _ _ _ Hf).
    + rewrite (first_app_none _ _ _ Hf); unfold first; simpl.
      replace (id_is j row) with false; [reflexivity|].
      unfold id_is; rewrite Hid; symmetry; apply Z.eqb_neq; congruence.
  - intros id upd u now r; unfold App.update_task.
    destruct (first _ (tasks db)) as [task|] eqn:Hf;
      [|now intros [= _ <-]].
    apply owned_lookup in Hf; destruct Hf as (_ & Hid & _).
    destruct (upd_title upd) as [|[s|]]; intros [= _ <-] Hj;
      try reflexivity; apply merge_task_other_id with (i := id); auto.
  - intros id u now r; unfold V0214.toggle_task_completion.
    destruct (first _ (tasks db)) as [task|] eqn:Hf;
      [|now intros [= _ <-]].
    apply owned_lookup in Hf; destruct Hf as (_ & Hid & _).
    intros [= _ <-] Hj; apply merge_task_other_id with (i := id); auto.
  - intros id u r; unfold App.delete_task.
    destruct (first _ (tasks db)) as [task|] eqn:Hf;
      [|now intros [= _ <-]].
    apply owned_lookup in Hf; destruct Hf as (_ & Hid & _).
    intros [= _ <-] Hj; apply delete_other_id with (i := id); auto.
Qed.

(** Alice deletes task 1; her task 2 is still there. *)
Lemma writes_leave_other_ids_witness :
  App.get_task 2 Sample.alice (snd (App.delete_task 1 Sample.alice Sample.db))
  = Ok Sample.t2.
Proof.
  rewrite (proj2 (proj2 (proj2
             (writes_leave_other_ids Sample.db
                (snd (App.delete_task 1 Sample.alice Sample.db))
                2 Sample.alice)))
             1 Sample.alice (Ok "Task deleted successfully") eq_refl
             ltac:(discriminate)).
  reflexivity.
Defined.

(** Whatever [sort] says, the earlier [list_tasks] answers with the
    caller's rows that pass the filter, each once per stored row. *)
Lemma list_tasks_0214_perm (filter_by : option Status)
      (sort : option string) (u : User.t) (db : Session)
      (l : list Task.t) :
  V0214.list_tasks filter_by sort u db = Ok l ->
  Permutation l (visible filter_by u db).
Proof.
  pose proof (list_tasks_0214_unordered filter_by None u db
                ltac:(discriminate) ltac:(discriminate)) as Hplain.
  unfold V0214.list_tasks in *; injection Hplain as Hplain.
  intros [= <-]; rewrite Hplain.
  destruct sort as [key|]; [|reflexivity].
  destruct (String.eqb key "created_at"); [apply order_by_perm|].
  destruct (String.eqb key "title"); [apply order_by_perm | reflexivity].
Qed.

(** ** Create, then read *)

(** In a store whose task ids are below the counter, the row that
    [create_task] answers is the one [get_task] gives its creator under
    the new id. *)
Theorem created_task_is_read_back
        (task_in : TaskCreate) (u : User.t) (db db' : Session)
        (t0 t1 : Z) (row : Task.t)
        (Hids : Forall (fun t => exists i, Task.id t = Some i
                                           /\ i < task_seq db) (tasks db))
        (Hcreate : App.create_task task_in u db t0 t1 = (Ok row, db')) :
  Task.id row = Some (task_seq db)
  /\ App.get_task (task_seq db) u db' = Ok row
  /\ App.get_task (task_seq db) u db = not_found.
Proof.
  unfold App.create_task in Hcreate.
  destruct (add_task _ db) as [[row' db1]|e] eqn:Hadd; [|discriminate].
  injection Hcreate as -> ->.
  destruct (add_task_ok _ _ _ _ Hadd)
    as (Hid & Hown & _ & _ & _ & _ & _ & _ & Htasks & _).
  assert (Hnone : first (fun t => id_is (task_seq db) t && owned_by u t)
                        (tasks db) = None).
  { apply first_none_all; intros r Hr.
    rewrite Forall_forall in Hids; destruct (Hids r Hr) as (i & Hi & Hlt).
    unfold id_is; rewrite Hi.
    replace (i =? task_seq db) with false; [reflexivity|].
    symmetry; apply Z.eqb_neq; lia. }
  split; [exact Hid|]; unfold App.get_task; rewrite Hnone.
  split; [|reflexivity].
  rewrite Htasks, (first_app_none _ _ _ Hnone); unfold first; simpl.
  replace (id_is (task_seq db) row) with true
    by (symmetry; now apply id_is_spec).
  unfold owned_by; rewrite Hown; cbn; now rewrite String.eqb_refl.
Qed.

Lemma created_task_is_read_back_witness :
  let out := App.create_task (TaskCreate_of_body "T1" None None)
                             Sample.alice Sample.db 1000 1001 in
  exists row, fst out = Ok row
              /\ App.get_task 4 Sample.alice (snd out) = Ok row.
Proof.
  intros out; eexists; split; [reflexivity|].
  apply (proj1 (proj2 (created_task_is_read_back
                  (TaskCreate_of_body "T1" None None) Sample.alice
                  Sample.db _ 1000 1001 _
                  (task_ids_assigned _ sample_db_consistent) eq_refl))).
Defined.

(** The status of a new task survives only as a boolean: the task is
    listed for its creator under a filter exactly when the filter is
    absent, or is [completed] and the task was created [completed], or
    is [pending] or [in_progress] and the task was created with any
    other status or none.  Nobody else has it listed. *)
Theorem created_task_is_listed
        (title : string) (description : option string)
        (created_as : option Status) (u v : User.t) (db db' : Session)
        (t0 t1 : Z) (row : Task.t)
        (Hcreate :
           App.create_task (TaskCreate_of_body title description created_as)
                           u db t0 t1 = (Ok row, db')) :
  (forall filter_by sort l,
      V0214.list_tasks filter_by sort u db' = Ok l ->
      (In row l <-> filter_admits filter_by created_as = true))
  /\ (forall filter_by l,
         V0215.list_tasks filter_by u db' = Ok l ->
         (In row l <-> filter_admits filter_by created_as = true))
  /\ (User.id v <> User.id u ->
      forall filter_by sort l,
        V0214.list_tasks filter_by sort v db' = Ok l -> ~ In row l).
Proof.
  unfold App.create_task in Hcreate.
  destruct (add_task _ db) as [[row' db1]|e] eqn:Hadd; [|discriminate].
  injection Hcreate as -> ->.
  destruct (add_task_ok _ _ _ _ Hadd)
    as (_ & Hown & _ & _ & Hdone & _ & _ & _ & Htasks & _).
  cbn in Hown, Hdone.
  assert (Hin : In row (tasks db'))
    by (rewrite Htasks; apply in_or_app; right; now left).
  assert (Hmine : owned_by u row = true)
    by (unfold owned_by; rewrite Hown; apply String.eqb_refl).
  assert (Hvis : forall filter_by,
             In row (visible filter_by u db')
             <-> filter_admits filter_by created_as = true).
  { intros filter_by; unfold visible; rewrite filter_In, Hmine; cbn.
    unfold status_matches, filter_admits; rewrite Hdone.
    destruct filter_by as [[| |]|], created_as as [[| |]|]; cbn;
      intuition congruence. }
  split; [|split].
  - intros filter_by sort l Hl; rewrite <- Hvis.
    pose proof (list_tasks_0214_perm _ _ _ _ _ Hl) as Hperm.
    split; apply Permutation_in; [exact Hperm | now symmetry].
  - intros filter_by l Hl; rewrite <- Hvis.
    rewrite list_tasks_0215_visible in Hl; injection Hl as <-; tauto.
  - intros Hne filter_by sort l Hl Hrow.
    apply (list_tasks_0214_owned _ _ _ _ _ _ Hl) in Hrow.
    destruct Hrow as [_ Hv]; unfold owned_by in Hv; rewrite Hown in Hv.
    apply String.eqb_eq in Hv; congruence.
Qed.

(** A task Alice creates as [in_progress] shows under [pending]. *)
Lemma created_task_is_listed_witness :
  let out := App.create_task
               (TaskCreate_of_body "T1" None (Some in_progress))
               Sample.alice Sample.db 1000 1001 in
  exists row l,
    fst out = Ok row
    /\ V0215.list_tasks (Some pending) Sample.alice (snd out) = Ok l
    /\ In row l.
Proof.
  intros out; do 2 eexists; split; [reflexivity | split; [reflexivity|]].
  apply (proj1 (proj2 (created_task_is_listed
                  "T1" None (Some in_progress) Sample.alice Sample.bob
                  Sample.db _ 1000 1001 _ eq_refl))
           (Some pending) _ eq_refl).
  reflexivity.
Defined.

(** ** Update and toggle, then read *)

Lemma merge_task_read_back (id : Z) (u : User.t) (db : Session)
      (task task' : Task.t) :
  first (fun t => id_is id t && owned_by u t) (tasks db) = Some task ->
  Task.id task' = Some id -> Task.user_id task' = User.id u ->
  App.get_task id u (merge_task task' db) = Ok task'.
Proof.
  intros Hf Hid Hown; unfold App.get_task, merge_task; cbn [tasks].
  rewrite Hid.
  assert (Hp : id_is id task' && owned_by u task' = true).
  { replace (id_is id task') with true by (symmetry; now apply id_is_spec).
    unfold owned_by; rewrite Hown; apply String.eqb_refl. }
  revert Hf; unfold first; induction (tasks db) as [|r l IH]; simpl;
    [discriminate|].
  destruct (id_is id r) eqn:Hr; simpl.
  - intros _; now rewrite Hp.
  - rewrite Hr; simpl; exact IH.
Qed.

(** After a successful [update_task] or [toggle_task_completion], the
    caller's [get_task] on the same id gives the row that was answered. *)
Theorem written_task_is_read_back (id : Z) (u : User.t) (db db' : Session)
        (now : Z) (task' : Task.t) :
  (forall upd, App.update_task id upd u db now = (Ok task', db') ->
               App.get_task id u db' = Ok task')
  /\ (V0214.toggle_task_completion id u db now = (Ok task', db') ->
      App.get_task id u db' = Ok task').
Proof.
  split.
  - intros upd; unfold App.update_task.
    destruct (first _ (tasks db)) as [task|] eqn:Hf; [|discriminate].
    destruct (owned_lookup _ _ _ _ Hf) as (_ & Hid & Hown).
    destruct (upd_title upd) as [|[s|]]; intros [= <- <-];
      apply merge_task_read_back with (task := task); auto.
  - unfold V0214.toggle_task_completion.
    destruct (first _ (tasks db)) as [task|] eqn:Hf; [|discriminate].
    destruct (owned_lookup _ _ _ _ Hf) as (_ & Hid & Hown).
    intros [= <- <-]; apply merge_task_read_back with (task := task); auto.
Qed.

Lemma written_task_is_read_back_witness :
  let out := App.update_task 1 (Sample.only_title "rewrite") Sample.alice
                             Sample.db 900 in
  exists task', fst out = Ok task'
                /\ App.get_task 1 Sample.alice (snd out) = Ok task'.
Proof.
  intros out; eexists; split; [reflexivity|].
  apply (proj1 (written_task_is_read_back 1 Sample.alice Sample.db _ 900 _)
           (Sample.only_title "rewrite") eq_refl).
Defined.

(** [toggle_task_completion] on a row the caller owns always succeeds:
    it negates [completed], stamps [updated_at] and keeps the rest; and
    it is the write that [update_task] makes when given only the
    opposite status. *)
Theorem toggle_flips_like_update (id : Z) (u : User.t) (db : Session)
        (now : Z) (task : Task.t)
        (Hfound : first (fun t => id_is id t && owned_by u t) (tasks db)
                  = Some task) :
  let task' :=
    {| Task.id := Task.id task; Task.user_id := Task.user_id task;
       Task.title := Task.title task;
       Task.description := Task.description task;
       Task.completed := negb (Task.completed task);
       Task.created_at := Task.created_at task;
       Task.updated_at := now |} in
  V0214.toggle_task_completion id u db now = (Ok task', merge_task task' db)
  /\ V0214.toggle_task_completion id u db now
     = App.update_task id
         (only_status (if Task.completed task then pending else completed))
         u db now.
Proof.
  unfold V0214.toggle_task_completion, App.update_task; rewrite Hfound.
  split; [reflexivity|]; cbn.
  destruct (Task.completed task); reflexivity.
Qed.

Lemma toggle_flips_like_update_witness :
  V0214.toggle_task_completion 2 Sample.alice Sample.db 950
  = App.update_task 2 (only_status pending) Sample.alice Sample.db 950.
Proof.
  apply (proj2 (toggle_flips_like_update 2 Sample.alice Sample.db 950
                  Sample.t2 eq_refl)).
Defined.

(** Toggling twice gives the task back as it was, but for [updated_at],
    which is the second reading of the clock. *)
Theorem toggle_twice_restores (id : Z) (u : User.t) (db db1 : Session)
        (now1 now2 : Z) (task task1 : Task.t)
        (Hfound : first (fun t => id_is id t && owned_by u t) (tasks db)
                  = Some task)
        (Hfirst : V0214.toggle_task_completion id u db now1
                  = (Ok task1, db1)) :
  let task2 :=
    {| Task.id := Task.id task; Task.user_id := Task.user_id task;
       Task.title := Task.title task;
       Task.description := Task.description task;
       Task.completed := Task.completed task;
       Task.created_at := Task.created_at task;
       Task.updated_at := now2 |} in
  Task.completed task1 = negb (Task.completed task)
  /\ V0214.toggle_task_completion id u db1 now2
     = (Ok task2, merge_task task2 db1).
Proof.
  destruct (owned_lookup _ _ _ _ Hfound) as (_ & Hid & Hown).
  unfold V0214.toggle_task_completion in Hfirst; rewrite Hfound in Hfirst.
  injection Hfirst as <- <-; split; [reflexivity|].
  match goal with
  | |- context [merge_task ?t db] =>
      pose proof (merge_task_read_back id u db task t Hfound Hid Hown)
        as Hread
  end.
  unfold App.get_task in Hread.
  destruct (first _ (tasks (merge_task _ db))) as [t|] eqn:Hf;
    [|discriminate].
  injection Hread as ->.
  unfold V0214.toggle_task_completion; rewrite Hf; cbn.
  now rewrite negb_involutive.
Qed.

Lemma toggle_twice_restores_witness :
  exists t,
    fst (V0214.toggle_task_completion 1 Sample.alice
           (snd (V0214.toggle_task_completion 1 Sample.alice Sample.db 910))
           920) = Ok t
    /\ Task.completed t = Task.completed Sample.t1
    /\ Task.updated_at t = 920.
Proof.
  rewrite (proj2 (toggle_twice_restores 1 Sample.alice Sample.db
                    (snd (V0214.toggle_task_completion 1 Sample.alice
                            Sample.db 910))
                    910 920 Sample.t1 _ eq_refl eq_refl)).
  eexists; repeat split.
Defined.

(** ** Delete *)

Lemma no_row_left (id : Z) (l : list Task.t) (p : Task.t -> bool) :
  first (fun t => id_is id t && p t)
        (filter (fun r => negb (id_is id r)) l) = None.
Proof.
  apply first_none_all; intros r Hr; apply filter_In in Hr.
  destruct Hr as [_ Hr]; apply negb_true_iff in Hr; now rewrite Hr.
Qed.

Lemma filter_keeps_all {A : Type} (keep : A -> bool) (rows : list A) :
  (forall r, In r rows -> keep r = true) -> filter keep rows = rows.
Proof.
  induction rows as [|x rows IH]; simpl; intros Hk; [reflexivity|].
  rewrite (Hk x (or_introl eq_refl)); f_equal; apply IH.
  intros r Hr; apply Hk; now right.
Qed.

Lemma one_row_less (i : Z) (l : list Task.t) (t : Task.t) :
  NoDup (map Task.id l) -> In t l -> Task.id t = Some i ->
  List.length l = S (List.length (filter (fun r => negb (id_is i r)) l)).
Proof.
  induction l as [|x l IH]; simpl; [contradiction|].
  intros Hnd Hin Hid; inversion Hnd as [|? ? Hnotin Hnd']; subst.
  destruct (id_is i x) eqn:Hx; simpl.
  - f_equal; f_equal; symmetry; apply filter_keeps_all.
    intros r Hr; apply negb_true_iff.
    destruct (id_is i r) eqn:Hri; [|reflexivity].
    apply id_is_spec in Hx, Hri; exfalso; apply Hnotin.
    rewrite Hx, <- Hri; now apply in_map.
  - f_equal; apply IH; auto.
    destruct Hin as [<-|Hin]; [|exact Hin].
    apply id_is_spec in Hid; congruence.
Qed.

(** After a successful [delete_task] the id answers 404 to everybody,
    the owner included, for [get], [update], [delete] and [toggle]; no
    listing has a row with that id; the [user] table is untouched; and,
    task ids being distinct, the [task] table has exactly one row less. *)
Theorem deleted_task_is_gone (id : Z) (u : User.t) (db db' : Session)
        (msg : string)
        (Hdel : App.delete_task id u db = (Ok msg, db')) :
  (forall v, App.get_task id v db' = not_found)
  /\ (forall v upd now, App.update_task id upd v db' now = (not_found, db'))
  /\ (forall v, App.delete_task id v db' = (not_found, db'))
  /\ (forall v now,
         V0214.toggle_task_completion id v db' now = (not_found, db'))
  /\ (forall v filter_by sort l t,
         V0214.list_tasks filter_by sort v db' = Ok l ->
         In t l -> Task.id t <> Some id)
  /\ users db' = users db
  /\ (NoDup (map Task.id (tasks db)) ->
      List.length (tasks db) = S (List.length (tasks db'))).
Proof.
  unfold App.delete_task in Hdel.
  destruct (first _ (tasks db)) as [task|] eqn:Hf; [|discriminate].
  destruct (owned_lookup _ _ _ _ Hf) as (Hin & Hid & _).
  injection Hdel as _ <-.
  assert (Hnone : forall v,
             first (fun t => id_is id t && owned_by v t)
                   (tasks (Database.delete task db)) = None).
  { intros v; unfold Database.delete; cbn [tasks]; rewrite Hid.
    apply no_row_left. }
  unfold App.get_task, App.update_task, App.delete_task,
    V0214.toggle_task_completion.
  repeat split; intros; rewrite ?Hnone; try reflexivity.
  - intros Ht.
    match goal with
    | Hl : V0214.list_tasks _ _ _ _ = Ok _, Hm : In _ _ |- _ =>
        apply (list_tasks_0214_owned _ _ _ _ _ _ Hl) in Hm;
        destruct Hm as [Hm _]
    end.
    unfold Database.delete in *; cbn [tasks] in *; rewrite Hid in *.
    match goal with
    | Hm : In _ (filter _ _) |- _ =>
        apply filter_In in Hm; destruct Hm as [_ Hm];
        apply negb_true_iff in Hm
    end.
    apply id_is_spec in Ht; congruence.
  - unfold Database.delete; cbn [tasks]; rewrite Hid.
    now apply one_row_less with (t := task).
Qed.

Lemma deleted_task_is_gone_witness :
  let db' := snd (App.delete_task 1 Sample.alice Sample.db) in
  App.get_task 1 Sample.alice db' = not_found
  /\ List.length (tasks db') = 2%nat.
Proof.
  intros db'.
  destruct (deleted_task_is_gone 1 Sample.alice Sample.db db'
              "Task deleted successfully" eq_refl)
    as (Hget & _ & _ & _ & _ & _ & Hlen).
  split; [apply Hget|].
  specialize (Hlen (task_ids_unique _ sample_db_consistent)).
  symmetry; exact (Nat.succ_inj _ _ Hlen).
Defined.

(** ** The status filter *)

Lemma filter_split_perm {A : Type} (keep : A -> bool) (rows : list A) :
  Permutation (filter keep rows ++ filter (fun r => negb (keep r)) rows)
              rows.
Proof.
  induction rows as [|x rows IH]; simpl; [constructor|].
  destruct (keep x); simpl.
  - now constructor.
  - symmetry; apply Permutation_cons_app; now symmetry.
Qed.

(** The filter knows two classes only.  [pending] and [in_progress]
    select the same rows, in both snapshots and under every [sort]; the
    answer for [completed] holds completed rows only, the answer for
    [pending] none, and the two together are the unfiltered answer, each
    row once. *)
Theorem status_filter_splits (u : User.t) (db : Session) :
  V0215.list_tasks (Some pending) u db
  = V0215.list_tasks (Some in_progress) u db
  /\ (forall sort,
         V0214.list_tasks (Some pending) sort u db
         = V0214.list_tasks (Some in_progress) sort u db)
  /\ exists finished open all,
      V0215.list_tasks (Some completed) u db = Ok finished
      /\ V0215.list_tasks (Some pending) u db = Ok open
      /\ V0215.list_tasks None u db = Ok all
      /\ Forall (fun t => Task.completed t = true) finished
      /\ Forall (fun t => Task.completed t = false) open
      /\ Permutation (finished ++ open) all.
Proof.
  split; [reflexivity | split; [reflexivity|]].
  do 3 eexists; rewrite !list_tasks_0215_visible.
  split; [reflexivity | split; [reflexivity | split; [reflexivity|]]].
  unfold visible; cbn [status_matches].
  repeat split.
  - apply Forall_forall; intros t Ht; apply filter_In in Ht.
    destruct Ht as [_ Ht]; now apply andb_prop in Ht.
  - apply Forall_forall; intros t Ht; apply filter_In in Ht.
    destruct Ht as [_ Ht]; apply andb_prop in Ht.
    now apply negb_true_iff.
  - rewrite <- !filter_filter.
    rewrite (filter_keeps_all (fun _ => true)) by reflexivity.
    apply filter_split_perm.
Qed.

(** ** Accounts *)

Lemma register_user_store (pwd_context : Security.CryptContext)
      (cfg : Auth.Settings) (user_in : UserCreate) (db db' : Session)
      (uuid4 salt : string) (t0 t1 : Z) (r : Response TokenOut) :
  V0214.register_user pwd_context cfg user_in db uuid4 salt t0 t1 = (r, db')
  \/ V0215.register_user pwd_context cfg user_in db uuid4 salt t0 t1
     = (r, db') ->
  exists r', App.register_row pwd_context user_in db uuid4 salt t0 = (r', db')
             /\ is_ok r' = is_ok r.
Proof.
  unfold V0214.register_user, V0215.register_user.
  destruct (App.register_row _ _ _ _ _ _) as [[u|e] db1];
    intros [H|H]; injection H as <- <-; eexists; split; reflexivity.
Qed.

(** [login_for_access_token] answers with a token exactly when the
    email is that of a stored row and the password verifies against the
    hash of the first such row; and the two snapshots succeed on the
    same requests and raise the same exceptions. *)
Theorem login_succeeds_iff (pwd_context : Security.CryptContext)
        (cfg : Auth.Settings) (form : LoginForm) (db : Session) (now : Z) :
  (is_ok (V0215.login_for_access_token pwd_context cfg form db now) = true
   <-> exists u,
         first (fun v => String.eqb (User.email v) (username form))
               (users db) = Some u
         /\ Security.verify_password pwd_context (form_password form)
                                     (User.hashed_password u) = Ok true)
  /\ is_ok (V0214.login_for_access_token pwd_context cfg form db now)
     = is_ok (V0215.login_for_access_token pwd_context cfg form db now)
  /\ (forall e,
         V0214.login_for_access_token pwd_context cfg form db now = Raised e
         <-> V0215.login_for_access_token pwd_context cfg form db now
             = Raised e).
Proof.
  unfold V0214.login_for_access_token, V0215.login_for_access_token, bind.
  destruct (first _ (users db)) as [u|].
  - destruct (Security.verify_password _ _ _) as [[|]|e'] eqn:Hver; cbn;
      (split; [split | split; [reflexivity | intros e; tauto]]).
    + intros _; exists u; auto.
    + reflexivity.
    + discriminate.
    + intros (u' & [= <-] & Hv); congruence.
    + discriminate.
    + intros (u' & [= <-] & Hv); congruence.
  - cbn; split; [split | split; [reflexivity | intros e; tauto]].
    + discriminate.
    + intros (u' & Hu & _); discriminate.
Qed.

(** A registration, whatever it answers, changes no login for another
    email: the same request gets the same answer before and after. *)
Theorem registration_leaves_other_logins
        (pwd_context : Security.CryptContext) (cfg : Auth.Settings)
        (user_in : UserCreate) (db db' : Session) (uuid4 salt : string)
        (t0 t1 : Z) (r : Response TokenOut) (form : LoginForm) (now : Z)
        (Hreg :
           V0214.register_user pwd_context cfg user_in db uuid4 salt t0 t1
           = (r, db')
           \/ V0215.register_user pwd_context cfg user_in db uuid4 salt t0 t1
              = (r, db'))
        (Hother : username form <> email user_in) :
  V0214.login_for_access_token pwd_context cfg form db' now
  = V0214.login_for_access_token pwd_context cfg form db now
  /\ V0215.login_for_access_token pwd_context cfg form db' now
     = V0215.login_for_access_token pwd_context cfg form db now.
Proof.
  destruct (register_user_store _ _ _ _ _ _ _ _ _ _ Hreg) as (r' & Hrow & _).
  assert (Hsame : first (fun v => String.eqb (User.email v) (username form))
                        (users db')
                  = first (fun v => String.eqb (User.email v) (username form))
                          (users db)).
  { destruct r' as [u|e].
    - apply register_row_ok in Hrow.
      destruct Hrow as (_ & _ & _ & Hmail & _ & Husers & _).
      rewrite Husers.
      destruct (first _ (users db)) as [v|] eqn:Hf.
      + now apply first_app_some.
      + rewrite (first_app_none _ _ _ Hf); unfold first; simpl.
        rewrite Hmail.
        destruct (String.eqb_spec (email user_in) (username form));
          [congruence | reflexivity].
    - now apply register_row_raised in Hrow; subst. }
  unfold V0214.login_for_access_token, V0215.login_for_access_token.
  rewrite Hsame; split; reflexivity.
Qed.

(** Carol registers; Alice's login is answered as before. *)
Lemma registration_leaves_other_logins_witness :
  let alice_form :=
    {| username := "a@x.com"; form_password := "password123" |} in
  let db' :=
    snd (V0215.register_user Sample.ctx Sample.cfg
           {| email := "c@x.com"; password := "password123" |}
           Sample.db "uid-carol" "nc" 600 601) in
  V0215.login_for_access_token Sample.ctx Sample.cfg alice_form db' 700
  = V0215.login_for_access_token Sample.ctx Sample.cfg alice_form
                                 Sample.db 700.
Proof.
  intros alice_form db'.
  apply (proj2 (registration_leaves_other_logins Sample.ctx Sample.cfg
                  {| email := "c@x.com"; password := "password123" |}
                  Sample.db db' "uid-carol" "nc" 600 601 _ alice_form 700
                  (or_intror eq_refl) ltac:(discriminate))).
Defined.



(** ** What every write keeps *)

Lemma merged_rows (x : Task.t) (db : Session) (t' : Task.t) :
  In t' (tasks (merge_task x db)) ->
  In t' (tasks db)
  \/ (t' = x /\ exists r, In r (tasks db) /\ Task.id r = Task.id x).
Proof.
  unfold merge_task; cbn [tasks]; intros Hin.
  apply in_map_iff in Hin; destruct Hin as (r & Hr & Hin).
  destruct (Task.id x) as [i|] eqn:Hx; [|left; now subst].
  destruct (id_is i r) eqn:Hri; [|left; now subst].
  right; split; [now subst|].
  exists r; split; [exact Hin | now apply id_is_spec].
Qed.

(** The user table only grows, by at most one row at the end. *)
Lemma users_after_write (pwd_context : Security.CryptContext)
        (db db' : Session) (Hwrite : writes pwd_context db db') :
  exists added,
    users db' = (users db ++ added)%list /\ (List.length added <= 1)%nat.
Proof.
  destruct Hwrite as [db user_in uuid4 salt now r db' H
                     |db task_in u t0 t1 r db' H
                     |db id upd u now r db' H
                     |db id u r db' H
                     |db id u now r db' H].
  - destruct r as [u|e].
    + apply register_row_ok in H.
      destruct H as (_ & _ & _ & _ & _ & Husers & _).
      exists [u]; split; [exact Husers | simpl; lia].
    + apply register_row_raised in H; subst.
      exists []; split; [now rewrite app_nil_r | simpl; lia].
  - exists []; rewrite app_nil_r; split; [|simpl; lia].
    unfold App.create_task in H.
    destruct (add_task _ db) as [[row db1]|e] eqn:Hadd;
      injection H as _ <-; [|reflexivity].
    now destruct (add_task_ok _ _ _ _ Hadd)
      as (_ & _ & _ & _ & _ & _ & _ & Husers & _).
  - exists []; rewrite app_nil_r; split; [|simpl; lia].
    unfold App.update_task in H.
    destruct (first _ (tasks db)); [|now injection H as _ <-].
    destruct (upd_title upd) as [|[s|]]; now injection H as _ <-.
  - exists []; rewrite app_nil_r; split; [|simpl; lia].
    unfold App.delete_task in H.
    destruct (first _ (tasks db)); now injection H as _ <-.
  - exists []; rewrite app_nil_r; split; [|simpl; lia].
    unfold V0214.toggle_task_completion in H.
    destruct (first _ (tasks db)); now injection H as _ <-.
Qed.

(** No write reassigns a task: a row found after a write under the id of
    a row stored before it has the same owner and the same creation
    time. *)
Theorem writes_keep_owner (pwd_context : Security.CryptContext)
        (db db' : Session) (t t' : Task.t)
        (Hwrite : writes pwd_context db db')
        (Hschema : consistent db)
        (Hin : In t (tasks db)) (Hin' : In t' (tasks db'))
        (Hid : Task.id t' = Task.id t) :
  Task.user_id t' = Task.user_id t
  /\ Task.created_at t' = Task.created_at t.
Proof.
  destruct Hschema as [Hids Hpk _ _].
  assert (Hold : In t' (tasks db) -> Task.user_id t' = Task.user_id t
                                     /\ Task.created_at t' = Task.created_at t).
  { intros Ht'; now rewrite (NoDup_map_eq _ _ _ _ Hpk Ht' Hin Hid). }
  assert (Hmerge : forall task x,
             In task (tasks db) -> Task.id x = Task.id task ->
             Task.user_id x = Task.user_id task ->
             Task.created_at x = Task.created_at task ->
             In t' (tasks (merge_task x db)) ->
             Task.user_id t' = Task.user_id t
             /\ Task.created_at t' = Task.created_at t).
  { intros task x Htask Hxid Hxu Hxc Hm.
    destruct (merged_rows _ _ _ Hm) as [Ht'|[-> _]]; [auto|].
    assert (task = t) as <-
        by (apply (NoDup_map_eq _ _ _ _ Hpk Htask Hin); congruence).
    auto. }
  destruct Hwrite as [db user_in uuid4 salt now r db' H
                     |db task_in u t0 t1 r db' H
                     |db id upd u now r db' H
                     |db id u r db' H
                     |db id u now r db' H].
  - apply Hold; destruct r as [u|e].
    + apply register_row_ok in H.
      destruct H as (_ & _ & _ & _ & _ & _ & Htasks & _); congruence.
    + apply register_row_raised in H; now subst.
  - unfold App.create_task in H.
    destruct (add_task _ db) as [[row db1]|e] eqn:Hadd;
      injection H as _ <-; [|auto].
    destruct (add_task_ok _ _ _ _ Hadd)
      as (Hrow & _ & _ & _ & _ & _ & _ & _ & Htasks & _).
    rewrite Htasks in Hin'; apply in_app_or in Hin'.
    destruct Hin' as [Ht'|[<-|[]]]; [auto|].
    rewrite Forall_forall in Hids; destruct (Hids t Hin) as (i & Hi & Hlt).
    rewrite Hrow, Hi in Hid; injection Hid as Heq; lia.
  - unfold App.update_task in H.
    destruct (first _ (tasks db)) as [task|] eqn:Hf;
      [|injection H as _ <-; auto].
    destruct (owned_lookup _ _ _ _ Hf) as (Htask & _ & _).
    destruct (upd_title upd) as [|[s|]]; injection H as _ <-; auto;
      (refine (Hmerge task _ Htask _ _ _ Hin'); reflexivity).
  - apply Hold; unfold App.delete_task in H.
    destruct (first _ (tasks db)) as [task|]; injection H as _ <-; auto.
    unfold Database.delete in Hin'; cbn [tasks] in Hin'.
    apply filter_In in Hin'; tauto.
  - unfold V0214.toggle_task_completion in H.
    destruct (first _ (tasks db)) as [task|] eqn:Hf;
      injection H as _ <-; auto.
    destruct (owned_lookup _ _ _ _ Hf) as (Htask & _ & _).
    (refine (Hmerge task _ Htask _ _ _ Hin'); reflexivity).
Qed.

(** Alice renames her task 1: it is still hers, created when it was. *)
Lemma writes_keep_owner_witness :
  let row :=
    {| Task.id := Some 1; Task.user_id := "uid-alice";
       Task.title := "rewrite"; Task.description := Some "the report";
       Task.completed := false;
       Task.created_at := 300; Task.updated_at := 900 |} in
  In row (tasks (snd (App.update_task 1 (Sample.only_title "rewrite")
                                      Sample.alice Sample.db 900)))
  /\ Task.user_id row = Task.user_id Sample.t1
  /\ Task.created_at row = Task.created_at Sample.t1.
Proof.
  intros row; split; [left; reflexivity|].
  apply (writes_keep_owner Sample.ctx Sample.db _ Sample.t1 row
           (write_update Sample.ctx Sample.db 1
              (Sample.only_title "rewrite") Sample.alice 900 _ _ eq_refl)
           sample_db_consistent (or_introl eq_refl) (or_introl eq_refl)
           eq_refl).
Defined.

(** Every write keeps what the schema promises: distinct task ids below
    the counter, distinct user ids and emails, and an owner in the
    [user] table for every task.  And no write removes an account or
    changes a stored row of one: the [user] table grows at its end, by
    one row at most. *)
Theorem writes_keep_schema (pwd_context : Security.CryptContext)
        (db db' : Session)
        (Hwrite : writes pwd_context db db')
        (Hschema : consistent db) (Hfk : owners_stored db) :
  consistent db' /\ owners_stored db'
  /\ exists added,
      users db' = (users db ++ added)%list /\ (List.length added <= 1)%nat.
Proof.
  split; [|split; [|now apply users_after_write with pwd_context]].
  - destruct Hwrite;
      eauto using register_row_consistent, create_task_consistent,
        update_task_consistent, delete_task_consistent,
        toggle_task_completion_consistent.
  - destruct (users_after_write _ _ _ Hwrite) as (added & Husers & _).
    assert (Hgrow : forall l,
               Forall (fun t => exists u, In u (users db)
                                          /\ User.id u = Task.user_id t) l ->
               Forall (fun t => exists u, In u (users db')
                                          /\ User.id u = Task.user_id t) l).
    { intros l; apply Forall_impl; intros t (u & Hu & Hid).
      exists u; split; [rewrite Husers; apply in_or_app; now left | exact Hid]. }
    unfold owners_stored in *.
    assert (Hmerge : forall task x,
               In task (tasks db) -> Task.user_id x = Task.user_id task ->
               Forall (fun t => exists u, In u (users db)
                                          /\ User.id u = Task.user_id t)
                      (tasks (merge_task x db))).
    { intros task x Htask Hxu; apply Forall_forall; intros t Ht.
      rewrite Forall_forall in Hfk.
      destruct (merged_rows _ _ _ Ht) as [Hold|[-> _]]; [auto|].
      rewrite Hxu; auto. }
    destruct Hwrite as [db user_in uuid4 salt now r db' H
                       |db task_in u t0 t1 r db' H
                       |db id upd u now r db' H
                       |db id u r db' H
                       |db id u now r db' H].
    + apply Hgrow; destruct r as [u|e].
      * apply register_row_ok in H.
        destruct H as (_ & _ & _ & _ & _ & _ & Htasks & _); congruence.
      * apply register_row_raised in H; now subst.
    + unfold App.create_task in H.
      destruct (add_task _ db) as [[row db1]|e] eqn:Hadd;
        injection H as _ <-; [|auto].
      destruct (add_task_ok _ _ _ _ Hadd)
        as (_ & Hown & _ & _ & _ & _ & _ & Hsame & Htasks & _).
      rewrite Htasks; apply Forall_app; split; [auto|].
      constructor; [|constructor].
      unfold add_task in Hadd.
      destruct (existsb _ (users db)) eqn:Hex; [|discriminate].
      apply existsb_exists in Hex; destruct Hex as (v & Hv & Heq).
      apply String.eqb_eq in Heq; exists v; split; [|congruence].
      rewrite Hsame; exact Hv.
    + apply Hgrow; unfold App.update_task in H.
      destruct (first _ (tasks db)) as [task|] eqn:Hf;
        [|injection H as _ <-; auto].
      destruct (owned_lookup _ _ _ _ Hf) as (Htask & _ & _).
      destruct (upd_title upd) as [|[s|]]; injection H as _ <-; auto;
        (apply (Hmerge task); [exact Htask | reflexivity]).
    + apply Hgrow; unfold App.delete_task in H.
      destruct (first _ (tasks db)) as [task|]; injection H as _ <-; auto.
      apply Forall_forall; intros t Ht.
      unfold Database.delete in Ht; cbn [tasks] in Ht.
      apply filter_In in Ht; rewrite Forall_forall in Hfk; apply Hfk; tauto.
    + apply Hgrow; unfold V0214.toggle_task_completion in H.
      destruct (first _ (tasks db)) as [task|] eqn:Hf;
        injection H as _ <-; auto.
      destruct (owned_lookup _ _ _ _ Hf) as (Htask & _ & _).
      (apply (Hmerge task); [exact Htask | reflexivity]).
Qed.

Lemma sample_db_owners_stored : owners_stored Sample.db.
Proof.
  unfold owners_stored; simpl; repeat constructor;
    [exists Sample.alice | exists Sample.alice | exists Sample.bob];
    simpl; auto.
Qed.

Lemma writes_keep_schema_witness :
  let db' := snd (App.create_task (TaskCreate_of_body "T1" None None)
                                  Sample.alice Sample.db 1000 1001) in
  consistent db' /\ owners_stored db'.
Proof.
  intros db'.
  destruct (writes_keep_schema Sample.ctx Sample.db db'
              (write_create Sample.ctx Sample.db
                 (TaskCreate_of_body "T1" None None) Sample.alice
                 1000 1001 _ _ eq_refl)
              sample_db_consistent sample_db_owners_stored)
    as (Hc & Hfk & _).
  split; assumption.
Defined.

Lemma filter_keeps_none {A : Type} (keep : A -> bool) (rows : list A) :
  (forall r, In r rows -> keep r = false) -> filter keep rows = [].
Proof.
  induction rows as [|x rows IH]; simpl; intros Hk; [reflexivity|].
  rewrite (Hk x (or_introl eq_refl)); apply IH.
  intros r Hr; apply Hk; now right.
Qed.

(** An identity that has just been registered owns nothing: in a store
    where every task has its owner in the [user] table, every listing
    for the new id is empty after a successful [register_user]. *)
Theorem new_identity_owns_nothing
        (pwd_context : Security.CryptContext) (cfg : Auth.Settings)
        (user_in : UserCreate) (db db' : Session) (uuid4 salt : string)
        (t0 t1 : Z) (r : Response TokenOut) (u : User.t)
        (Hfk : owners_stored db)
        (Hreg :
           V0214.register_user pwd_context cfg user_in db uuid4 salt t0 t1
           = (r, db')
           \/ V0215.register_user pwd_context cfg user_in db uuid4 salt t0 t1
              = (r, db'))
        (Hok : is_ok r = true)
        (Hnew : User.id u = uuid4) :
  (forall filter_by sort,
      V0214.list_tasks filter_by sort u db' = Ok [])
  /\ (forall filter_by, V0215.list_tasks filter_by u db' = Ok [])
  /\ (forall id, App.get_task id u db' = not_found).
Proof.
  destruct (register_user_store _ _ _ _ _ _ _ _ _ _ Hreg)
    as (r' & Hrow & Hr').
  rewrite Hok in Hr'; destruct r' as [row|e]; [|discriminate].
  unfold App.register_row in Hrow.
  destruct (first _ (users db)); [discriminate|].
  destruct (Security.get_password_hash _ _ _) as [hashed|]; [|discriminate].
  destruct (add_user _ db) as [db1|] eqn:Hadd; [|discriminate].
  injection Hrow as _ <-.
  destruct (add_user_fresh _ _ _ Hadd) as (-> & Hfresh & _).
  cbn [User.id] in Hfresh.
  assert (Hnone : forall t, In t (tasks db) -> owned_by u t = false).
  { intros t Ht; unfold owners_stored in Hfk; rewrite Forall_forall in Hfk.
    destruct (Hfk t Ht) as (v & Hv & Hid).
    unfold owned_by; apply String.eqb_neq; intros Heq; apply Hfresh.
    rewrite <- Hnew, <- Heq, <- Hid; now apply in_map. }
  assert (Hvis : forall filter_by dbx,
             tasks dbx = tasks db -> visible filter_by u dbx = []).
  { intros filter_by dbx Hx; unfold visible; rewrite Hx.
    apply filter_keeps_none; intros t Ht; now rewrite (Hnone t Ht). }
  split; [|split].
  - intros filter_by sort.
    destruct (V0214.list_tasks filter_by sort u _) as [l|e] eqn:Hl;
      [|discriminate Hl].
    apply list_tasks_0214_perm in Hl; rewrite Hvis in Hl by reflexivity.
    symmetry in Hl; now apply Permutation_nil in Hl; subst.
  - intros filter_by; now rewrite list_tasks_0215_visible, Hvis.
  - intros id; unfold App.get_task; cbn [tasks].
    replace (first _ (tasks db)) with (@None Task.t); [reflexivity|].
    symmetry; apply first_none_all; intros t Ht.
    rewrite (Hnone t Ht); apply andb_false_r.
Qed.

Lemma new_identity_owns_nothing_witness :
  let carol :=
    {| User.id := "uid-carol"; User.email := "c@x.com";
       User.hashed_password := "$2b$nc$password123";
       User.name := None; User.created_at := 600 |} in
  let db' :=
    snd (V0215.register_user Sample.ctx Sample.cfg
           {| email := "c@x.com"; password := "password123" |}
           Sample.db "uid-carol" "nc" 600 601) in
  In carol (users db') /\ V0215.list_tasks None carol db' = Ok [].
Proof.
  intros carol db'; split; [right; right; left; reflexivity|].
  apply (proj1 (proj2 (new_identity_owns_nothing Sample.ctx Sample.cfg
                  {| email := "c@x.com"; password := "password123" |}
                  Sample.db db' "uid-carol" "nc" 600 601 _ carol
                  sample_db_owners_stored (or_intror eq_refl) eq_refl
                  eq_refl))).
Defined.

(** ** The two resolvers *)

(** [get_current_user] gives only stored users, and only the one whose
    id is the subject of a token that verified.  The later snapshot is
    the stricter one: what it resolves the earlier resolves to the same
    user, and the earlier resolves nothing more except for a user whose
    id is the empty string. *)
Theorem get_current_user_resolves_subject (cfg : Auth.Settings)
        (token : Auth.Token) (db : Session) (now : Z) (u : User.t) :
  (V0214.get_current_user cfg token db now = Ok u ->
   In u (users db)
   /\ exists p, Auth.verify_token cfg token now = Ok p
                /\ Auth.sub p = Some (User.id u))
  /\ (V0215.get_current_user cfg token db now = Ok u ->
      V0214.get_current_user cfg token db now = Ok u
      /\ User.id u <> "")
  /\ (V0214.get_current_user cfg token db now = Ok u ->
      User.id u <> "" ->
      V0215.get_current_user cfg token db now = Ok u).
Proof.
  unfold V0214.get_current_user, V0215.get_current_user, bind.
  destruct (Auth.verify_token cfg token now) as [p|e];
    [|repeat split; discriminate].
  destruct (Auth.sub p) as [uid|] eqn:Hsub; [|repeat split; discriminate].
  destruct (first _ (users db)) as [v|] eqn:Hf.
  - apply first_some_in in Hf; destruct Hf as [Hin Hid].
    apply String.eqb_eq in Hid.
    assert (H1 : Ok v = Ok u ->
                 In u (users db)
                 /\ exists q, Ok p = Ok q /\ Auth.sub q = Some (User.id u)).
    { intros [= <-]; split; [exact Hin|].
      exists p; split; [reflexivity | now rewrite Hsub, Hid]. }
    destruct (String.eqb_spec uid "") as [Hempty|Hne];
      (split; [exact H1 | split]).
    + discriminate.
    + intros [= <-] Hu; congruence.
    + intros [= <-]; split; [reflexivity | congruence].
    + intros Hu _; exact Hu.
  - destruct (String.eqb uid ""); repeat split; discriminate.
Qed.

Lemma get_current_user_resolves_subject_witness :
  let token := Auth.create_access_token Sample.cfg "uid-alice" None 1000 in
  V0215.get_current_user Sample.cfg token Sample.db 2000 = Ok Sample.alice
  /\ V0214.get_current_user Sample.cfg token Sample.db 2000
     = Ok Sample.alice.
Proof.
  intros token; split; [reflexivity|].
  apply (proj1 (proj2 (get_current_user_resolves_subject
                         Sample.cfg token Sample.db 2000 Sample.alice))
           eq_refl).
Defined.

(** ** Isolation of writes *)

Lemma filter_map_same {A : Type} (p : A -> bool) (f : A -> A) (l : list A) :
  (forall r, In r l -> p (f r) = p r) ->
  (forall r, In r l -> p r = true -> f r = r) ->
  filter p (map f l) = filter p l.
Proof.
  induction l as [|x l IH]; simpl; intros Hp Hf; [reflexivity|].
  rewrite (Hp x (or_introl eq_refl)).
  destruct (p x) eqn:Hx.
  - rewrite (Hf x (or_introl eq_refl) Hx); f_equal.
    apply IH; intros r Hr; [apply Hp | apply Hf]; now right.
  - apply IH; intros r Hr; [apply Hp | apply Hf]; now right.
Qed.

Lemma filter_filter_same {A : Type} (p keep : A -> bool) (l : list A) :
  (forall r, In r l -> p r = true -> keep r = true) ->
  filter p (filter keep l) = filter p l.
Proof.
  induction l as [|x l IH]; simpl; intros Hk; [reflexivity|].
  assert (IH' : filter p (filter keep l) = filter p l)
    by (apply IH; intros r Hr; apply Hk; now right).
  destruct (keep x) eqn:Hkeep; simpl; [now rewrite IH'|].
  destruct (p x) eqn:Hx; [|exact IH'].
  rewrite (Hk x (or_introl eq_refl) Hx) in Hkeep; discriminate.
Qed.

(** What one user sees of the [task] table: the rows [list_tasks] starts
    from, and the row [get_task] finds under each id. *)
Lemma same_view (a : User.t) (db db' : Session) :
  filter (owned_by a) (tasks db') = filter (owned_by a) (tasks db) ->
  (forall j, first (fun t => id_is j t && owned_by a t) (tasks db')
             = first (fun t => id_is j t && owned_by a t) (tasks db)) ->
  (forall filter_by sort,
      V0214.list_tasks filter_by sort a db'
      = V0214.list_tasks filter_by sort a db)
  /\ (forall filter_by,
         V0215.list_tasks filter_by a db' = V0215.list_tasks filter_by a db)
  /\ (forall j, App.get_task j a db' = App.get_task j a db).
Proof.
  intros Hrows Hrow; unfold V0214.list_tasks, V0215.list_tasks, App.get_task.
  rewrite Hrows; repeat split; intros; now rewrite ?Hrow.
Qed.

(** Overwriting or removing a row that [b] owns changes nothing of what
    another user [a] sees. *)
Lemma foreign_merge_unseen (a b : User.t) (db : Session) (id : Z)
      (task task' : Task.t) :
  NoDup (map Task.id (tasks db)) -> User.id a <> User.id b ->
  first (fun t => id_is id t && owned_by b t) (tasks db) = Some task ->
  Task.id task' = Task.id task -> Task.user_id task' = Task.user_id task ->
  filter (owned_by a) (tasks (merge_task task' db))
  = filter (owned_by a) (tasks db)
  /\ (forall j, first (fun t => id_is j t && owned_by a t)
                      (tasks (merge_task task' db))
                = first (fun t => id_is j t && owned_by a t) (tasks db)).
Proof.
  intros Hpk Hab Hf Hid' Hown'.
  destruct (owned_lookup _ _ _ _ Hf) as (Hin & Hid & Hown).
  assert (Hnot : owned_by a task = false)
    by (unfold owned_by; rewrite Hown; apply String.eqb_neq; congruence).
  assert (Hnot' : owned_by a task' = false)
    by (unfold owned_by in *; now rewrite Hown').
  assert (Hrow : forall r, In r (tasks db) -> id_is id r = true -> r = task).
  { intros r Hr Hri; apply id_is_spec in Hri.
    apply (NoDup_map_eq _ _ _ _ Hpk Hr Hin); congruence. }
  unfold merge_task; cbn [tasks]; rewrite Hid', Hid; split.
  - apply filter_map_same; intros r Hr.
    + destruct (id_is id r) eqn:Hri; [|reflexivity].
      rewrite (Hrow r Hr Hri); congruence.
    + intros Hmine; destruct (id_is id r) eqn:Hri; [|reflexivity].
      rewrite (Hrow r Hr Hri) in Hmine; congruence.
  - intros j; apply first_map_same; intros r Hr.
    + destruct (id_is id r) eqn:Hri; [|reflexivity].
      rewrite (Hrow r Hr Hri), Hnot, Hnot', !andb_false_r; reflexivity.
    + intros Hmine; destruct (id_is id r) eqn:Hri; [|reflexivity].
      rewrite (Hrow r Hr Hri), Hnot, andb_false_r in Hmine; discriminate.
Qed.

(** Nothing that [b] does to tasks changes what another user [a] is
    shown (task ids being distinct): after [create_task],
    [update_task], [delete_task] or [toggle_task_completion] invoked as
    [b], whatever the id and whatever the answer, every listing and
    every [get_task] of [a] is answered as before. *)
Theorem others_writes_leave_my_tasks (a b : User.t) (db db' : Session)
        (Hpk : NoDup (map Task.id (tasks db)))
        (Hab : User.id a <> User.id b)
        (Hwrite :
           (exists task_in t0 t1 r,
               App.create_task task_in b db t0 t1 = (r, db'))
           \/ (exists id upd now r,
                  App.update_task id upd b db now = (r, db'))
           \/ (exists id r, App.delete_task id b db = (r, db'))
           \/ (exists id now r,
                  V0214.toggle_task_completion id b db now = (r, db'))) :
  (forall filter_by sort,
      V0214.list_tasks filter_by sort a db'
      = V0214.list_tasks filter_by sort a db)
  /\ (forall filter_by,
         V0215.list_tasks filter_by a db' = V0215.list_tasks filter_by a db)
  /\ (forall j, App.get_task j a db' = App.get_task j a db).
Proof.
  apply same_view;
    destruct Hwrite as [(task_in & t0 & t1 & r & H)
                       |[(id & upd & now & r & H)
                        |[(id & r & H)|(id & now & r & H)]]].
  - unfold App.create_task in H.
    destruct (add_task _ db) as [[row db1]|e] eqn:Hadd;
      injection H as _ <-; [|reflexivity].
    destruct (add_task_ok _ _ _ _ Hadd)
      as (_ & Hown & _ & _ & _ & _ & _ & _ & Htasks & _).
    rewrite Htasks, filter_app; simpl.
    replace (owned_by a row) with false; [apply app_nil_r|].
    symmetry; unfold owned_by; rewrite Hown; apply String.eqb_neq.
    cbn; congruence.
  - unfold App.update_task in H.
    destruct (first _ (tasks db)) as [task|] eqn:Hf;
      [|now injection H as _ <-].
    destruct (upd_title upd) as [|[s|]]; injection H as _ <-;
      try reflexivity;
      now apply (foreign_merge_unseen a b db id task).
  - unfold App.delete_task in H.
    destruct (first _ (tasks db)) as [task|] eqn:Hf;
      [|now injection H as _ <-].
    injection H as _ <-.
    destruct (owned_lookup _ _ _ _ Hf) as (Hin & Hid & Hown).
    unfold Database.delete; cbn [tasks]; rewrite Hid.
    apply filter_filter_same; intros t Ht Hmine.
    destruct (id_is id t) eqn:Hti; [|reflexivity].
    apply id_is_spec in Hti.
    assert (t = task) as ->
        by (apply (NoDup_map_eq _ _ _ _ Hpk Ht Hin); congruence).
    unfold owned_by in Hmine; rewrite Hown in Hmine.
    apply String.eqb_eq in Hmine; congruence.
  - unfold V0214.toggle_task_completion in H.
    destruct (first _ (tasks db)) as [task|] eqn:Hf;
      [|now injection H as _ <-].
    injection H as _ <-.
    now apply (foreign_merge_unseen a b db id task).
  - intros j; unfold App.create_task in H.
    destruct (add_task _ db) as [[row db1]|e] eqn:Hadd;
      injection H as _ <-; [|reflexivity].
    destruct (add_task_ok _ _ _ _ Hadd)
      as (_ & Hown & _ & _ & _ & _ & _ & _ & Htasks & _).
    assert (Hrow : owned_by a row = false).
    { unfold owned_by; rewrite Hown; apply String.eqb_neq; cbn; congruence. }
    rewrite Htasks.
    destruct (first _ (tasks db)) as [t|] eqn:Hf.
    + now apply first_app_some.
    + rewrite (first_app_none _ _ _ Hf); unfold first; simpl.
      now rewrite Hrow, andb_false_r.
  - unfold App.update_task in H.
    destruct (first _ (tasks db)) as [task|] eqn:Hf;
      [|now injection H as _ <-].
    destruct (upd_title upd) as [|[s|]]; injection H as _ <-;
      try reflexivity;
      now apply (foreign_merge_unseen a b db id task).
  - intros j; unfold App.delete_task in H.
    destruct (first _ (tasks db)) as [task|] eqn:Hf;
      [|now injection H as _ <-].
    injection H as _ <-.
    destruct (owned_lookup _ _ _ _ Hf) as (Hin & Hid & Hown).
    unfold Database.delete; cbn [tasks]; rewrite Hid.
    apply first_filter_same; intros t Ht Hmine.
    apply andb_prop in Hmine; destruct Hmine as [_ Hmine].
    destruct (id_is id t) eqn:Hti; [|reflexivity].
    apply id_is_spec in Hti.
    assert (t = task) as ->
        by (apply (NoDup_map_eq _ _ _ _ Hpk Ht Hin); congruence).
    unfold owned_by in Hmine; rewrite Hown in Hmine.
    apply String.eqb_eq in Hmine; congruence.
  - unfold V0214.toggle_task_completion in H.
    destruct (first _ (tasks db)) as [task|] eqn:Hf;
      [|now injection H as _ <-].
    injection H as _ <-.
    now apply (foreign_merge_unseen a b db id task).
Qed.

(** Bob deletes his task 3; Alice's listing is what it was. *)
Lemma others_writes_leave_my_tasks_witness :
  V0215.list_tasks None Sample.alice
                   (snd (App.delete_task 3 Sample.bob Sample.db))
  = Ok [Sample.t1; Sample.t2].
Proof.
  rewrite (proj1 (proj2 (others_writes_leave_my_tasks
                    Sample.alice Sample.bob Sample.db
                    (snd (App.delete_task 3 Sample.bob Sample.db))
                    (task_ids_unique _ sample_db_consistent)
                    ltac:(discriminate)
                    (or_intror (or_intror (or_introl
                       (ex_intro _ 3 (ex_intro _ _ eq_refl)))))))).
  reflexivity.
Defined.
